(** * A shallow embedding of pr-repo-miner's acquisition core

    Modelled sources:
    - [src/cache/progress_manager.py]  (ProgressManager)
    - [src/services/repository_service.py]  (adaptive windowed search)
    - [src/services/pull_request_service.py]  (PR/commit comparison fetch)
    - [src/miners/github_miner.py]  (session orchestration, acceptance)
    - [src/services/github_api.py]  (request cache, rate-limit retries)
    - [src/services/issue_service.py]  (average issue close time)
    - [src/post_processing.py]  (batch consolidation helpers)

    Network calls are Section variables standing for the JSON answers of
    the GitHub API (after [get_json_response]: [None] for a failed call). *)

From Stdlib Require Import List ZArith QArith String Bool Lia Sorted.
From Stdlib Require Import Ascii DecimalString.
From Stdlib Require DecimalZ.
From Stdlib Require Import Permutation.
Import ListNotations.
Open Scope nat_scope.
Open Scope list_scope.

(* ------------------------------------------------------------------ *)
(** ** Data model *)

(** A search result as kept in the candidate cache ([search_results]):
    only the keys the core reads. [stargazers_count] is read with
    [.get], hence optional. *)
Record Candidate := mkCandidate {
  full_name : string;
  html_url : string;
  stargazers_count : option Z;
  created_at : string;
  updated_at : string;
  default_branch : string
}.

(** [CommitData] of [src/models/repository.py]; timestamps as seconds. *)
Record CommitData := mkCommitData {
  cd_sha : string;
  cd_message : string;
  cd_author_name : string;
  cd_author_email : option string;
  cd_author_date : Z
}.

(** [PullRequestData] of [src/models/repository.py]. *)
Record PullRequestData := mkPullRequestData {
  pr_number : Z;
  pr_title : string;
  base_branch : string;
  base_commit_sha : string;
  base_commit_date : Z;
  pr_commit_sha : string;
  pr_commit_date : Z;
  comparison_url : string;
  pr_author_name : string;
  pr_author_email : option string;
  pr_author_login : string;
  pr_commits : list CommitData
}.

(** [RepositoryData]: the accepted record. Floats are kept as their
    (exact) rational values. *)
Record RepositoryData := mkRepositoryData {
  rd_name : string;
  rd_url : string;
  rd_stars : option Z;
  rd_created_at : string;
  rd_updated_at : string;
  rd_avg_issue_close_days : Q;
  rd_prs : list PullRequestData;
  rd_default_branch : string;
  rd_languages : option (list (string * Z));
  rd_dominant_language : option string
}.

(** The [progress_data] dictionary of [ProgressManager]. *)
Record progress_data := mkProgress {
  total_processed : nat;
  last_index : nat;
  processed_repos : list RepositoryData;
  rejected_repos : list string;
  search_results : list Candidate;
  last_update : option Z;
  config_hash : option string;
  current_batch : nat;
  cache_exhausted : bool
}.

(** What one [try: with open(path, 'w') as f: json.dump(x, f)
    except Exception: print(...)] does to the file. *)
Inductive write_outcome :=
  | WriteOk
  | OpenError     (* [open] raises: the file is left as it was *)
  | DumpError.    (* [json.dump] raises after [open] truncated the file *)

(** A JSON file the program writes: not written yet, the document of the
    last successful write, or a truncated (partial) text. *)
Inductive saved_file (A : Type) :=
  | SavedNone
  | Saved (a : A)
  | SavedTruncated.
Arguments SavedNone {A}.
Arguments Saved {A} a.
Arguments SavedTruncated {A}.

(** A file system on which every write succeeds. *)
Definition io_ok : nat -> write_outcome := fun _ => WriteOk.

Definition write_file {A : Type} (o : write_outcome) (a : A) (old : saved_file A) : saved_file A :=
  match o with
  | WriteOk => Saved a
  | OpenError => old
  | DumpError => SavedTruncated
  end.

(** The manager: its in-memory dictionary, the content of
    [.data/mining_progress.json], the value [time.time()] returns next,
    the number of [_save_progress] calls so far and the outcome the file
    system gives the n-th of them. *)
Record pm_state := mkPM {
  data : progress_data;
  disk : saved_file progress_data;
  clock : Z;
  saves : nat;
  save_io : nat -> write_outcome
}.

(* ------------------------------------------------------------------ *)
(** ** ProgressManager *)

Module ProgressManager.

(** [_create_empty_progress] *)
Definition create_empty_progress : progress_data :=
  {| total_processed := 0; last_index := 0; processed_repos := [];
     rejected_repos := []; search_results := []; last_update := None;
     config_hash := None; current_batch := 0; cache_exhausted := false |}.

(** Contents of the progress file as [open]/[json.load] see them. *)
Inductive file_state :=
  | FileMissing
  | FileUnreadable            (* [open] raises (permissions, I/O error) *)
  | FileText (s : string).

(** The value [json.load] produces: a dictionary (the stored state)
    or any other JSON value. *)
Inductive json_value :=
  | JDict (d : progress_data)
  | JOther.

(** Exceptions raised inside the [try] of [_load_progress]. *)
Inductive load_error :=
  | OSError
  | JSONDecodeError
  | AttributeError.

Inductive result (A E : Type) :=
  | Ok (a : A)
  | Err (e : E).
Arguments Ok {A E} a.
Arguments Err {A E} e.

Section Load.
(** [json.loads] on the file text: [None] when it raises. *)
Variable json_parse : string -> option json_value.

(** The body of the [try] block: open, parse, then [data.get(...)]
    in the log line (an [AttributeError] on a non-dictionary). *)
Definition load_body (f : file_state) : result progress_data load_error :=
  match f with
  | FileMissing | FileUnreadable => Err OSError
  | FileText s =>
      match json_parse s with
      | None => Err JSONDecodeError
      | Some (JDict d) => Ok d
      | Some JOther => Err AttributeError
      end
  end.

(** [_load_progress] *)
Definition load_progress (f : file_state) : progress_data :=
  match f with
  | FileMissing => create_empty_progress
  | _ =>
      match load_body f with
      | Ok d => d
      | Err _ => create_empty_progress
      end
  end.
End Load.

(** [_save_progress]: writes the dictionary to the file; an exception
    is printed and swallowed. *)
Definition save_progress (st : pm_state) : pm_state :=
  {| data := data st; disk := write_file (save_io st (saves st)) (data st) (disk st);
     clock := clock st; saves := S (saves st); save_io := save_io st |}.

(** [time.time()] *)
Definition time_time (st : pm_state) : Z * pm_state :=
  (clock st, {| data := data st; disk := disk st; clock := (clock st + 1)%Z;
                saves := saves st; save_io := save_io st |}).

Definition set_data (st : pm_state) (d : progress_data) : pm_state :=
  {| data := d; disk := disk st; clock := clock st; saves := saves st; save_io := save_io st |}.

(** [update_progress(processed_repo, rejected_repos, current_index)] *)
Definition update_progress (st : pm_state) (processed_repo : option RepositoryData)
    (rejected : list string) (current_index : nat) : pm_state :=
  let d := data st in
  let d1 :=
    match processed_repo with
    | Some r =>
        {| total_processed := S (total_processed d);
           last_index := last_index d;
           processed_repos := processed_repos d ++ [r];
           rejected_repos := rejected_repos d;
           search_results := search_results d;
           last_update := last_update d;
           config_hash := config_hash d;
           current_batch := current_batch d;
           cache_exhausted := cache_exhausted d |}
    | None => d
    end in
  let '(now, st1) := time_time st in
  let d2 :=
    {| total_processed := total_processed d1;
       last_index := current_index;
       processed_repos := processed_repos d1;
       rejected_repos := rejected_repos d1 ++ rejected;
       search_results := search_results d1;
       last_update := Some now;
       config_hash := config_hash d1;
       current_batch := current_batch d1;
       cache_exhausted := cache_exhausted d1 |} in
  let st2 := set_data st1 d2 in
  (* the "nearing exhaustion" check only prints *)
  if Nat.eqb (Nat.modulo (total_processed d2) 5) 0 then save_progress st2 else st2.

(** [save_search_results(repos, config_hash)] *)
Definition save_search_results (st : pm_state) (repos : list Candidate) (h : string)
    : pm_state :=
  let d := data st in
  let existing := search_results d in
  let d1 :=
    match existing with
    | _ :: _ =>
        if Nat.ltb (List.length existing) (List.length repos)
        then (* expanding: keep [last_index], reset the flag *)
          {| total_processed := total_processed d; last_index := last_index d;
             processed_repos := processed_repos d; rejected_repos := rejected_repos d;
             search_results := search_results d; last_update := last_update d;
             config_hash := config_hash d; current_batch := current_batch d;
             cache_exhausted := false |}
        else d
    | [] =>
        {| total_processed := total_processed d; last_index := 0;
           processed_repos := processed_repos d; rejected_repos := rejected_repos d;
           search_results := search_results d; last_update := last_update d;
           config_hash := config_hash d; current_batch := current_batch d;
           cache_exhausted := false |}
    end in
  let '(now, st1) := time_time st in
  let d2 :=
    {| total_processed := total_processed d1; last_index := last_index d1;
       processed_repos := processed_repos d1; rejected_repos := rejected_repos d1;
       search_results := repos; last_update := Some now;
       config_hash := Some h; current_batch := current_batch d1;
       cache_exhausted := cache_exhausted d1 |} in
  save_progress (set_data st1 d2).

(** [get_search_results(config_hash)]: the cached list itself (the same
    Python list object as [progress_data['search_results']]). *)
Definition get_search_results (st : pm_state) (h : string) : option (list Candidate) :=
  match config_hash (data st), search_results (data st) with
  | Some h', _ :: _ => if String.eqb h' h then Some (search_results (data st)) else None
  | _, _ => None
  end.

(** [get_next_start_index] *)
Definition get_next_start_index (st : pm_state) : nat := last_index (data st).

(** [finalize] *)
Definition finalize (st : pm_state) : pm_state := save_progress st.

(** Sequences of manager operations, for the monotonicity invariant. *)
Inductive pm_op :=
  | OpUpdate (processed_repo : option RepositoryData) (rejected : list string) (idx : nat)
  | OpSave (repos : list Candidate) (h : string).

Definition step (st : pm_state) (op : pm_op) : pm_state :=
  match op with
  | OpUpdate r rej i => update_progress st r rej i
  | OpSave repos h => save_search_results st repos h
  end.

(** The states after each operation. *)
Fixpoint run (st : pm_state) (ops : list pm_op) : list pm_state :=
  match ops with
  | [] => []
  | op :: rest => let st' := step st op in st' :: run st' rest
  end.

(** The operations as the orchestrator issues them: an update never
    moves the index backwards, a save expands a non-empty cache. *)
Fixpoint ops_ok (st : pm_state) (ops : list pm_op) : Prop :=
  match ops with
  | [] => True
  | OpUpdate r rej i :: rest =>
      last_index (data st) <= i /\ ops_ok (step st (OpUpdate r rej i)) rest
  | OpSave repos h :: rest =>
      search_results (data st) <> [] /\ ops_ok (step st (OpSave repos h)) rest
  end.

(** [mark_cache_exhausted] *)
Definition mark_cache_exhausted (st : pm_state) : pm_state :=
  let d := data st in
  save_progress (set_data st
    {| total_processed := total_processed d; last_index := last_index d;
       processed_repos := processed_repos d; rejected_repos := rejected_repos d;
       search_results := search_results d; last_update := last_update d;
       config_hash := config_hash d; current_batch := current_batch d;
       cache_exhausted := true |}).

(** [reset_index_for_new_search] *)
Definition reset_index_for_new_search (st : pm_state) : pm_state :=
  let d := data st in
  save_progress (set_data st
    {| total_processed := total_processed d; last_index := 0;
       processed_repos := processed_repos d; rejected_repos := rejected_repos d;
       search_results := search_results d; last_update := last_update d;
       config_hash := config_hash d; current_batch := current_batch d;
       cache_exhausted := false |}).

(** The dictionary [get_statistics] returns. *)
Record statistics := mkStatistics {
  stat_total_processed : nat;
  stat_total_rejected : nat;
  stat_last_index : nat;
  stat_search_results_count : nat;
  stat_cache_exhausted : bool
}.

(** [get_statistics] *)
Definition get_statistics (st : pm_state) : statistics :=
  {| stat_total_processed := total_processed (data st);
     stat_total_rejected := List.length (rejected_repos (data st));
     stat_last_index := last_index (data st);
     stat_search_results_count := List.length (search_results (data st));
     stat_cache_exhausted := cache_exhausted (data st) |}.

(** [get_processed_repos] *)
Definition get_processed_repos (st : pm_state) : list RepositoryData :=
  processed_repos (data st).

End ProgressManager.

(* ------------------------------------------------------------------ *)
(** ** Python helpers *)

(** Truthiness of an [Optional[int]]: [None] and [0] are both false. *)
Definition py_truthy_int (o : option Z) : bool :=
  match o with
  | Some n => negb (Z.eqb n 0)
  | None => false
  end.

(** Truthiness of an [Optional[str]]: [None] and [""] are both false. *)
Definition py_truthy_str (o : option string) : bool :=
  match o with
  | Some s => negb (String.eqb s "")
  | None => false
  end.

(** [str(n)] for an int. *)
Definition z_to_string (z : Z) : string := NilZero.string_of_int (Z.to_int z).

(** [s.split('\n')[0]] *)
Fixpoint first_line (s : string) : string :=
  match s with
  | EmptyString => EmptyString
  | String c rest =>
      if Ascii.eqb c (Ascii.ascii_of_nat 10) then EmptyString
      else String c (first_line rest)
  end.

(* ------------------------------------------------------------------ *)
(** ** RepositoryService: adaptive windowed search *)

Module RepositoryService.

(** The star qualifier of a search query. *)
Inductive stars_window :=
  | StarsAtLeast (lo : Z)          (* [stars:>=lo] *)
  | StarsRange (lo hi : Z).        (* [stars:lo..hi] *)

Definition render_stars (w : stars_window) : string :=
  match w with
  | StarsAtLeast lo => "stars:>=" ++ z_to_string lo
  | StarsRange lo hi => "stars:" ++ z_to_string lo ++ ".." ++ z_to_string hi
  end.

(** GitHub's meaning of the qualifier (ranges are inclusive). *)
Definition in_window (w : stars_window) (stars : Z) : bool :=
  match w with
  | StarsAtLeast lo => Z.leb lo stars
  | StarsRange lo hi => Z.leb lo stars && Z.leb stars hi
  end.

Section Search.
Variable MIN_STARS : Z.
Variable SEARCH_LANGUAGE : string.
(** [REPOS_PER_PAGE], a page size. *)
Variable REPOS_PER_PAGE : nat.
(** [GET /search/repositories] with [q] and [page] (sorted by stars,
    descending, [per_page = REPOS_PER_PAGE]): the ['items'] of the
    answer, [None] when the answer is null or has no ['items']. *)
Variable search_api : string -> nat -> option (list Candidate).

Definition window_query (w : stars_window) : string :=
  "language:" ++ SEARCH_LANGUAGE ++ " " ++ render_stars w.

(** The loop of [_search_repositories_paginated] over the remaining
    page numbers: the results and the pages requested. *)
Fixpoint paginate (query : string) (pages : list nat) : list Candidate * list nat :=
  match pages with
  | [] => ([], [])
  | page_num :: rest =>
      match search_api query page_num with
      | None => ([], [page_num])
      | Some page_repos =>
          if Nat.ltb (List.length page_repos) REPOS_PER_PAGE
          then (page_repos, [page_num])
          else let '(more, req) := paginate query rest in
               (page_repos ++ more, page_num :: req)
      end
  end.

(** [_search_repositories_paginated(query)]: pages 1 to 10. *)
Definition search_repositories_paginated (query : string) : list Candidate * list nat :=
  paginate query (seq 1 10).

(** The window [search_repositories_adaptive] queries, [None] for the
    early [return []]. [if max_stars] is Python truthiness. *)
Definition search_window (max_stars : option Z) : option stars_window :=
  let m := match max_stars with Some n => n | None => 0%Z end in
  if py_truthy_int max_stars && Z.leb m MIN_STARS then None
  else if py_truthy_int max_stars then Some (StarsRange MIN_STARS (m - 1))
  else Some (StarsAtLeast MIN_STARS).

(** [search_repositories_adaptive(max_stars)]: the candidates and the
    search requests issued, as (query, page) pairs. *)
Definition search_repositories_adaptive (max_stars : option Z)
    : list Candidate * list (string * nat) :=
  match search_window max_stars with
  | None => ([], [])
  | Some w =>
      let query := window_query w in
      let '(repos, pages) := search_repositories_paginated query in
      (repos, map (pair query) pages)
  end.
End Search.

End RepositoryService.

(* ------------------------------------------------------------------ *)
(** ** PullRequestService: PR/commit comparison fetch *)

Module PullRequestService.

(** An element of [GET /repos/{repo}/pulls]: the keys read. *)
Record PullJson := mkPullJson {
  pj_number : Z;
  pj_title : string;
  pj_base_ref : string;          (* pr['base']['ref'] *)
  pj_created_at : Z;             (* pr['created_at'] *)
  pj_user_login : option string; (* pr['user'].get('login') *)
  pj_user_name : option string;  (* pr['user'].get('name') *)
  pj_commits_url : string
}.

(** An element of a commit list: the keys read. *)
Record CommitJson := mkCommitJson {
  cj_sha : string;
  cj_message : string;
  cj_author_name : string;
  cj_author_email : option string;
  cj_author_date : Z             (* ['commit']['author']['date'] *)
}.

Definition to_commit_data (c : CommitJson) : CommitData :=
  {| cd_sha := cj_sha c; cd_message := first_line (cj_message c);
     cd_author_name := cj_author_name c; cd_author_email := cj_author_email c;
     cd_author_date := cj_author_date c |}.

(** The [author_email] loop: the first truthy commit email. *)
Fixpoint pick_email (author_email : option string) (commits : list CommitData) : option string :=
  match commits with
  | [] => author_email
  | c :: rest =>
      if negb (py_truthy_str author_email) && py_truthy_str (cd_author_email c)
      then pick_email (cd_author_email c) rest
      else pick_email author_email rest
  end.

Section Fetch.
(** [GET /repos/{repo}/pulls?state=open&per_page=MAX_PRS_PER_REPO] *)
Variable pulls_api : string -> option (list PullJson).
(** [GET pr['commits_url']] *)
Variable commits_api : string -> option (list CommitJson).
(** [GET /repos/{repo}/commits?sha=branch&until=date&per_page=1] *)
Variable branch_commits_api : string -> string -> Z -> option (list CommitJson).

(** [_get_commit_before_date(repo, branch, target_date)] *)
Definition get_commit_before_date (repo branch : string) (target_date : Z)
    : option CommitJson :=
  match branch_commits_api repo branch target_date with
  | Some (c :: _) => Some c
  | _ => None
  end.

(** One iteration of the PR loop: [None] where the loop [continue]s
    or does not append. *)
Definition pr_entry (repo : string) (pr : PullJson) : option PullRequestData :=
  let base := pj_base_ref pr in
  let author_login := match pj_user_login pr with Some l => l | None => "unknown"%string end in
  let author_name0 :=
    if py_truthy_str (pj_user_name pr)
    then match pj_user_name pr with Some n => n | None => author_login end
    else author_login in
  match commits_api (pj_commits_url pr) with
  | None | Some [] => None
  | Some (c0 :: cs) =>
      let pr_commits_data := c0 :: cs in
      let commits := map to_commit_data pr_commits_data in
      let author_email := pick_email None commits in
      let last_pr_commit := last pr_commits_data c0 in
      let author_name :=
        if String.eqb author_name0 author_login
        then let last_commit_name := cd_author_name (last commits (to_commit_data c0)) in
             if negb (String.eqb last_commit_name "") then last_commit_name else author_name0
        else author_name0 in
      match get_commit_before_date repo base (pj_created_at pr) with
      | Some base_commit =>
          Some {| pr_number := pj_number pr; pr_title := pj_title pr;
                  base_branch := base;
                  base_commit_sha := cj_sha base_commit;
                  base_commit_date := cj_author_date base_commit;
                  pr_commit_sha := cj_sha last_pr_commit;
                  pr_commit_date := cj_author_date last_pr_commit;
                  comparison_url :=
                    ("https://github.com/" ++ repo ++ "/compare/" ++ cj_sha base_commit
                     ++ "..." ++ cj_sha last_pr_commit)%string;
                  pr_author_name := author_name;
                  pr_author_email := author_email;
                  pr_author_login := author_login;
                  pr_commits := commits |}
      | None => None
      end
  end.

(** [get_pr_comparison_data(repo_full_name)] *)
Definition get_pr_comparison_data (repo : string) : list PullRequestData :=
  match pulls_api repo with
  | None | Some [] => []
  | Some prs =>
      fold_right (fun pr acc => match pr_entry repo pr with
                                | Some d => d :: acc
                                | None => acc
                                end) [] prs
  end.
End Fetch.

(** The [until] filter of GitHub's commit listing, as the spec describes
    it (section 4.4: the most recent commit at or before the date), over
    a branch history listed newest first. Used to build concrete API
    answers. *)
Definition commits_until (history : list CommitJson) (until : Z) : list CommitJson :=
  filter (fun c => Z.leb (cj_author_date c) until) history.

End PullRequestService.

(* ------------------------------------------------------------------ *)
(** ** GitHubMiner: acceptance pipeline and session *)

Module GitHubMiner.
Import ProgressManager.

(** [max(languages.items(), key=lambda item: item[1])[0]]: the first
    key of maximal count. *)
Fixpoint max_language (best : string * Z) (rest : list (string * Z)) : string :=
  match rest with
  | [] => fst best
  | kv :: rest' => if Z.ltb (snd best) (snd kv) then max_language kv rest' else max_language best rest'
  end.

Definition dominant_language (languages : option (list (string * Z))) : option string :=
  match languages with
  | Some (kv :: rest) => Some (max_language kv rest)
  | _ => None
  end.

Section Acceptance.
Variable MAX_ISSUE_CLOSE_DAYS : Q.
(** [pr_service.get_pr_comparison_data] *)
Variable get_pr_comparison_data : string -> list PullRequestData.
(** [issue_service.get_avg_issue_close_time]: the mean in days. *)
Variable get_avg_issue_close_time : string -> option Q.
(** [repo_service.get_repository_languages] *)
Variable get_repository_languages : string -> option (list (string * Z)).

(** [_process_repository(repo)] *)
Definition process_repository (repo : Candidate) : option RepositoryData :=
  match get_pr_comparison_data (full_name repo) with
  | [] => None
  | prs_data =>
      match get_avg_issue_close_time (full_name repo) with
      | None => None
      | Some avg_days =>
          if Qle_bool MAX_ISSUE_CLOSE_DAYS avg_days then None
          else
            let languages := get_repository_languages (full_name repo) in
            Some {| rd_name := full_name repo; rd_url := html_url repo;
                    rd_stars := stargazers_count repo;
                    rd_created_at := created_at repo; rd_updated_at := updated_at repo;
                    rd_avg_issue_close_days := avg_days; rd_prs := prs_data;
                    rd_default_branch := default_branch repo;
                    rd_languages := languages;
                    rd_dominant_language := dominant_language languages |}
      end
  end.
End Acceptance.

(** Outcome of one session of [mine_repositories]. *)
Inductive session_outcome :=
  | TargetReached
  | NoMoreWork
  | BatchDone (start_index end_index : nat).

Section Session.
Variable BATCH_SIZE : nat.
Variable TOTAL_TARGET_REPOS : nat.
(** [_process_repository] (any acceptance decision). *)
Variable evaluate : Candidate -> option RepositoryData.
(** [repo_service.search_repositories_adaptive(max_stars=...)]. *)
Variable search_repositories_adaptive : option Z -> list Candidate.

(** Names already in the cache. *)
Definition existing_names (repos : list Candidate) : list string := map full_name repos.

Definition name_in (n : string) (names : list string) : bool :=
  existsb (String.eqb n) names.

(** The ceiling of the next window: the last cached repository's
    [stargazers_count], [None] for an empty cache. *)
Definition next_ceiling (repos : list Candidate) : option Z :=
  match rev repos with
  | last_repo_in_cache :: _ => stargazers_count last_repo_in_cache
  | [] => None
  end.

(** [_ensure_sufficient_repo_cache(config_hash, start_index)]. When the
    cache comes from [get_search_results] it is the stored list itself,
    so [repos.extend] also extends [progress_data['search_results']]
    before [save_search_results] runs. *)
Definition ensure_sufficient_repo_cache (st : pm_state) (h : string) (start_index : nat)
    : list Candidate * pm_state :=
  let '(repos, aliased) :=
    match get_search_results st h with
    | Some r => (r, true)
    | None => ([], false)
    end in
  if Nat.ltb start_index (List.length repos) then (repos, st)
  else
    let new_repos := search_repositories_adaptive (next_ceiling repos) in
    match new_repos with
    | [] => (repos, st)
    | _ =>
        let names := existing_names repos in
        let unique_new := filter (fun r => negb (name_in (full_name r) names)) new_repos in
        match unique_new with
        | [] => (repos, st)
        | _ =>
            let repos' := repos ++ unique_new in
            let st1 :=
              if aliased then
                let d := data st in
                set_data st
                  {| total_processed := total_processed d; last_index := last_index d;
                     processed_repos := processed_repos d; rejected_repos := rejected_repos d;
                     search_results := repos'; last_update := last_update d;
                     config_hash := config_hash d; current_batch := current_batch d;
                     cache_exhausted := cache_exhausted d |}
              else st in
            (repos', save_search_results st1 repos' h)
        end
    end.

(** The loop of [_process_batch] over [enumerate(batch_to_process)]:
    the final manager and, per candidate, its name and the index given
    to [update_progress]. Batch files are written afterwards and do
    not touch the manager. *)
Fixpoint process_batch_loop (st : pm_state) (start_index i : nat) (batch : list Candidate)
    : pm_state * list (string * nat) :=
  match batch with
  | [] => (st, [])
  | repo_json :: rest =>
      let current_index := start_index + i in
      let repo_data := evaluate repo_json in
      let rejected_list := match repo_data with
                           | Some _ => []
                           | None => [full_name repo_json]
                           end in
      let st1 := update_progress st repo_data rejected_list (current_index + 1) in
      let '(st2, tr) := process_batch_loop st1 start_index (S i) rest in
      (st2, (full_name repo_json, current_index + 1) :: tr)
  end.

(** [repos[start_index:end_index]] for non-negative indices. *)
Definition py_slice {A} (l : list A) (i j : nat) : list A := firstn (j - i) (skipn i l).

(** [_process_batch(repos, start_index, end_index)] *)
Definition process_batch (st : pm_state) (repos : list Candidate) (start_index end_index : nat)
    : pm_state * list (string * nat) :=
  process_batch_loop st start_index 0 (py_slice repos start_index end_index).

(** [mine_repositories()]: one session. The early [return] inside the
    [try] runs [_finalize_execution] twice (explicitly and in
    [finally]). *)
Definition mine_repositories (st : pm_state) (h : string) : pm_state * session_outcome :=
  if Nat.leb TOTAL_TARGET_REPOS (total_processed (data st)) then (st, TargetReached)
  else
    let start_index := get_next_start_index st in
    let '(repos, st1) := ensure_sufficient_repo_cache st h start_index in
    if (match repos with [] => true | _ => false end)
       || Nat.leb (List.length repos) start_index
    then (finalize (finalize st1), NoMoreWork)
    else
      let end_index := Nat.min (start_index + BATCH_SIZE) (List.length repos) in
      let '(st2, _) := process_batch st1 repos start_index end_index in
      (finalize st2, BatchDone start_index end_index).
End Session.

(** [f"{n:03d}"]: zero-padded to at least three digits. *)
Definition pad3 (n : nat) : string :=
  let s := z_to_string (Z.of_nat n) in
  match String.length s with
  | 1 => "00" ++ s
  | 2 => "0" ++ s
  | _ => s
  end.

(** [batch_number] in [_save_batch_results]: [start_index // BATCH_SIZE + 1];
    [None] for the [ZeroDivisionError] of [BATCH_SIZE = 0]. *)
Definition batch_number (BATCH_SIZE start_index : nat) : option nat :=
  match BATCH_SIZE with
  | 0 => None
  | _ => Some (start_index / BATCH_SIZE + 1)
  end.

(** The JSON batch file [_save_batch_results] writes (inside
    [results/batches]): [f"batch_{batch_number:03d}_{OUTPUT_FILE}"]. *)
Definition batch_json_file (BATCH_SIZE : nat) (OUTPUT_FILE : string) (start_index : nat)
    : option string :=
  match batch_number BATCH_SIZE start_index with
  | Some n => Some ("batch_" ++ pad3 n ++ "_" ++ OUTPUT_FILE)%string
  | None => None
  end.

End GitHubMiner.

(* ------------------------------------------------------------------ *)
(** ** GitHubAPIService: request cache and rate-limit retries *)

Module GitHubAPI.

(** [_get_cache_key(url, params)]: [params] as the dict's items, values
    already rendered by the f-string; [sorted(params.items())] orders the
    (distinct) keys. *)
Fixpoint insert_param (p : string * string) (l : list (string * string)) : list (string * string) :=
  match l with
  | [] => [p]
  | q :: rest => if String.ltb (fst q) (fst p) then q :: insert_param p rest else p :: q :: rest
  end.

Definition sort_params (params : list (string * string)) : list (string * string) :=
  fold_right insert_param [] params.

Definition render_params (params : list (string * string)) : string :=
  String.concat "&" (map (fun kv => (fst kv ++ "=" ++ snd kv)%string) params).

Definition get_cache_key (url : string) (params : list (string * string)) : string :=
  match params with
  | [] => url
  | _ => (url ++ "?" ++ render_params (sort_params params))%string
  end.

(** [bool(response)], that is [response.ok]: [raise_for_status()] raises
    exactly for the statuses 400 to 599. *)
Definition response_ok (status : Z) : bool :=
  negb ((400 <=? status)%Z && (status <? 600)%Z).

Section Api.
(** A decoded JSON document. *)
Variable J : Type.

(** What the code reads from a [requests.Response]. *)
Record response := mkResponse {
  status_code : Z;
  rate_limit_remaining : option Z;  (* header X-RateLimit-Remaining, [None] if absent *)
  body : option J;                  (* [response.json()], [None] if it raises *)
  next_link : option string         (* [response.links['next']['url']] *)
}.

(** One call of [requests.get]: an answer, or an exception. *)
Inductive net_event :=
  | NetResponse (r : response)
  | NetFailure.

Record api_state := mkApiState {
  cache : list (string * J);   (* [self.cache], insertion ordered *)
  request_count : nat;         (* [self.request_count] *)
  saved_cache : saved_file (list (string * J));  (* [.data/api_cache.json] *)
  cache_io : nat -> write_outcome
    (* the outcome of the [_save_cache] made when [request_count] is n *)
}.

Fixpoint assoc_get (k : string) (l : list (string * J)) : option J :=
  match l with
  | [] => None
  | (k', v) :: rest => if String.eqb k' k then Some v else assoc_get k rest
  end.

(** [d[k] = v] on a dict: replaces in place, or appends. *)
Fixpoint assoc_set (k : string) (v : J) (l : list (string * J)) : list (string * J) :=
  match l with
  | [] => [(k, v)]
  | (k', v') :: rest => if String.eqb k' k then (k, v) :: rest else (k', v') :: assoc_set k v rest
  end.

(** The simulated answer of a cache hit: a bare [requests.Response()]
    with status 200, no headers (hence no links) and the cached JSON. *)
Definition cached_response (v : J) : response :=
  {| status_code := 200; rate_limit_remaining := None; body := Some v; next_link := None |}.

(** [make_request(url, params, use_cache)] for the key
    [_get_cache_key(url, params)], against the sequence of network
    answers still to come (an exhausted sequence is a connection error).
    [_check_rate_limit] and the sleeps only wait. A missing
    X-RateLimit-Remaining header counts as 0. *)
Fixpoint make_request (net : list net_event) (st : api_state) (key : string) (use_cache : bool)
    : option response * api_state * list net_event :=
  match (if use_cache then assoc_get key (cache st) else None) with
  | Some v => (Some (cached_response v), st, net)
  | None =>
      match net with
      | [] => (None, st, [])
      | NetFailure :: rest => (None, st, rest)
      | NetResponse response :: rest =>
          let st1 := {| cache := cache st; request_count := S (request_count st);
                        saved_cache := saved_cache st; cache_io := cache_io st |} in
          let finish :=
            if Z.eqb (status_code response) 200 && use_cache then
              match body response with
              | None => (None, st1, rest)  (* response.json() raises *)
              | Some v =>
                  let c := assoc_set key v (cache st1) in
                  (Some response,
                   {| cache := c; request_count := request_count st1;
                      saved_cache := if Nat.eqb (request_count st1 mod 10) 0
                                     then write_file (cache_io st1 (request_count st1)) c
                                            (saved_cache st1)
                                     else saved_cache st1;
                      cache_io := cache_io st1 |},
                   rest)
              end
            else (Some response, st1, rest) in
          if Z.eqb (status_code response) 403 then
            if Z.eqb (match rate_limit_remaining response with Some n => n | None => 0%Z end) 0
            then make_request rest st1 key use_cache
            else finish
          else if Z.eqb (status_code response) 429 then make_request rest st1 key use_cache
          else finish
      end
  end.

(** [get_json_response(url, params)], with the default [use_cache=True]
    every caller uses. *)
Definition get_json_response (net : list net_event) (st : api_state) (key : string)
    : option J * api_state * list net_event :=
  let '(resp, st1, net1) := make_request net st key true in
  match resp with
  | Some r => if Z.eqb (status_code r) 200 then (body r, st1, net1) else (None, st1, net1)
  | None => (None, st1, net1)
  end.
End Api.

Arguments NetResponse {J} r.
Arguments NetFailure {J}.

End GitHubAPI.

(* ------------------------------------------------------------------ *)
(** ** IssueService: average issue close time *)

Module IssueService.
Import GitHubAPI.

(** An element of [GET /repos/{repo}/issues?state=closed]: the keys read. *)
Record IssueJson := mkIssueJson {
  is_pull_request : bool;          (* ['pull_request' in issue] *)
  issue_created_at : option string;
  issue_closed_at : option string
}.

Section Issues.
(** [datetime.fromisoformat(s.rstrip('Z'))] in seconds, [None] when it raises. *)
Variable parse_date : string -> option Q.
Variable MAX_ISSUE_PAGES : nat.
(** [ISSUES_PER_PAGE], rendered. *)
Variable ISSUES_PER_PAGE : string.

(** The duration one issue adds, [None] when the loop skips it. *)
Definition issue_duration (issue : IssueJson) : option Q :=
  if is_pull_request issue then None
  else if py_truthy_str (issue_created_at issue) && py_truthy_str (issue_closed_at issue) then
    match issue_created_at issue, issue_closed_at issue with
    | Some c, Some d =>
        match parse_date c, parse_date d with
        | Some created, Some closed => Some (closed - created)%Q
        | _, _ => None
        end
    | _, _ => None
    end
  else None.

(** The loop over one page: [total_seconds] and [count]. *)
Fixpoint page_stats (items : list IssueJson) (total_seconds : Q) (count : nat) : Q * nat :=
  match items with
  | [] => (total_seconds, count)
  | issue :: rest =>
      match issue_duration issue with
      | Some duration => page_stats rest (total_seconds + duration)%Q (S count)
      | None => page_stats rest total_seconds count
      end
  end.

(** [for _ in range(MAX_ISSUE_PAGES)]: the remaining iterations. *)
Fixpoint issue_pages (pages : nat) (net : list (net_event (list IssueJson)))
    (st : api_state (list IssueJson)) (url : string) (params : list (string * string))
    (total_seconds : Q) (count : nat)
    : Q * nat * api_state (list IssueJson) * list (net_event (list IssueJson)) :=
  match pages with
  | 0 => (total_seconds, count, st, net)
  | S p =>
      let key := get_cache_key url params in
      let '(data, st1, net1) := get_json_response _ net st key in
      match data with
      | None | Some [] => (total_seconds, count, st1, net1)
      | Some items =>
          let '(t, c) := page_stats items total_seconds count in
          let '(resp, st2, net2) := make_request _ net1 st1 key true in
          match resp with
          | Some r =>
              (* [if response and 'next' in response.links] *)
              if response_ok (status_code _ r) then
                match next_link _ r with
                | Some u => issue_pages p net2 st2 u [] t c
                | None => (t, c, st2, net2)
                end
              else (t, c, st2, net2)
          | None => (t, c, st2, net2)
          end
      end
  end.

Definition average_days (total_seconds : Q) (count : nat) : option Q :=
  if Nat.eqb count 0 then None
  else Some (total_seconds / inject_Z (Z.of_nat count) / (24 * 3600))%Q.

(** [get_avg_issue_close_time(repo_full_name)] *)
Definition get_avg_issue_close_time (net : list (net_event (list IssueJson)))
    (st : api_state (list IssueJson)) (repo_full_name : string)
    : option Q * api_state (list IssueJson) * list (net_event (list IssueJson)) :=
  let url := ("https://api.github.com/repos/" ++ repo_full_name ++ "/issues")%string in
  let params := [("state"%string, "closed"%string); ("per_page"%string, ISSUES_PER_PAGE)] in
  let '(total_seconds, count, st', net') := issue_pages MAX_ISSUE_PAGES net st url params 0 0 in
  (average_days total_seconds count, st', net').
End Issues.

End IssueService.

(* ------------------------------------------------------------------ *)
(** ** DataProcessor (post_processing.py) *)

Module PostProcessing.

(** [str.split(sep)] *)
Fixpoint split_on (sep : Ascii.ascii) (s : string) : list string :=
  match s with
  | EmptyString => [EmptyString]
  | String a rest =>
      let parts := split_on sep rest in
      if Ascii.eqb a sep then EmptyString :: parts
      else match parts with
           | p :: ps => String a p :: ps
           | [] => [String a EmptyString]
           end
  end.

(** [os.path.basename] (POSIX): what follows the last ['/']. *)
Definition basename (path : string) : string := last (split_on "/"%char path) EmptyString.

(** The whitespace [int()] strips (ASCII part). *)
Definition py_space (a : Ascii.ascii) : bool :=
  let n := Ascii.nat_of_ascii a in
  ((9 <=? n) && (n <=? 13)) || ((28 <=? n) && (n <=? 32)).

Fixpoint lstrip (s : string) : string :=
  match s with
  | String a rest => if py_space a then lstrip rest else s
  | EmptyString => EmptyString
  end.

Definition rev_string (s : string) : string := string_of_list_ascii (rev (list_ascii_of_string s)).

Definition py_strip (s : string) : string := rev_string (lstrip (rev_string (lstrip s))).

Definition py_digits (s : string) : option Z :=
  match NilZero.uint_of_string s with
  | Some d => Some (Z.of_uint d)
  | None => None
  end.

(** [int(s)] on a string without ['_'] (the only kind it gets here):
    surrounding whitespace, an optional sign, decimal digits;
    [None] for the [ValueError]. *)
Definition py_int (s : string) : option Z :=
  match py_strip s with
  | String "-" rest => option_map Z.opp (py_digits rest)
  | String "+" rest => py_digits rest
  | t => py_digits t
  end.

(** [_extract_batch_number(filename)] *)
Definition extract_batch_number (filename : string) : Z :=
  match nth_error (split_on "_"%char (basename filename)) 1 with
  | Some piece => match py_int piece with Some n => n | None => 0%Z end
  | None => 0%Z  (* IndexError *)
  end.

(** [_get_project_category(row, quartiles)]: (Q1, Q3) per metric. *)
Definition get_project_category (q_stars q_watchers q_forks : Q * Q)
    (stars watchers forks : Q) : string :=
  let '(q1_stars, q3_stars) := q_stars in
  let '(q1_watchers, q3_watchers) := q_watchers in
  let '(q1_forks, q3_forks) := q_forks in
  if Qle_bool q3_stars stars && Qle_bool q3_watchers watchers && Qle_bool q3_forks forks
  then "high"
  else if Qle_bool stars q1_stars && Qle_bool watchers q1_watchers && Qle_bool forks q1_forks
  then "lesser"
  else if (negb (Qle_bool stars q1_stars) && Qle_bool stars q3_stars) &&
          (negb (Qle_bool watchers q1_watchers) && Qle_bool watchers q3_watchers) &&
          (negb (Qle_bool forks q1_forks) && Qle_bool forks q3_forks)
  then "medium"
  else "Excluded".

Section Dedup.
(** A record of a batch file and its ['name'] ([repo.get('name')]). *)
Variable R : Type.
Variable get_name : R -> option string.

(** The duplicate-removal loop of [_consolidate_batches]: the unique
    records and the [duplicates] counter. *)
Fixpoint dedup_loop (seen_names : list string) (repos : list R) : list R * nat :=
  match repos with
  | [] => ([], 0)
  | repo :: rest =>
      match get_name repo with
      | Some repo_name =>
          if negb (String.eqb repo_name "") && negb (existsb (String.eqb repo_name) seen_names)
          then let '(u, d) := dedup_loop (repo_name :: seen_names) rest in (repo :: u, d)
          else let '(u, d) := dedup_loop seen_names rest in (u, S d)
      | None => let '(u, d) := dedup_loop seen_names rest in (u, S d)
      end
  end.

Definition remove_duplicates (all_repos : list R) : list R * nat := dedup_loop [] all_repos.
End Dedup.

End PostProcessing.

(* ================================================================== *)
(** * Properties *)

Import ProgressManager RepositoryService PullRequestService GitHubMiner.
Import GitHubAPI IssueService PostProcessing.


(** ** Facts about the manager's operations *)

Lemma save_progress_data (st : pm_state) : data (save_progress st) = data st.
Proof. reflexivity. Qed.

Lemma update_progress_last_index (st : pm_state) r rej (i : nat) :
  last_index (data (update_progress st r rej i)) = i.
Proof.
  unfold update_progress; destruct r; simpl;
    destruct (Nat.eqb _ 0); reflexivity.
Qed.

Lemma save_search_results_last_index (st : pm_state) repos h :
  search_results (data st) <> [] ->
  last_index (data (save_search_results st repos h)) = last_index (data st).
Proof.
  intros Hne. unfold save_search_results; simpl.
  destruct (search_results (data st)) as [|c l] eqn:E; [congruence|].
  destruct (Nat.ltb _ _); reflexivity.
Qed.

(** ** C9 *)

(** C9: when the progress file exists but cannot be read, does not parse
    as JSON, or parses to something other than a dictionary, the body of
    the [try] raises and [_load_progress] returns the fresh empty state
    (nothing processed, [last_index] 0, empty cache and rejected list)
    instead of propagating the error. *)
Theorem load_progress_corrupt_is_fresh (json_parse : string -> option json_value)
    (f : file_state)
    (Hbad : f = FileUnreadable \/
            exists s, f = FileText s /\ (json_parse s = None \/ json_parse s = Some JOther)) :
  (exists e, load_body json_parse f = Err e) /\
  load_progress json_parse f = create_empty_progress /\
  total_processed (load_progress json_parse f) = 0 /\
  last_index (load_progress json_parse f) = 0 /\
  processed_repos (load_progress json_parse f) = [] /\
  search_results (load_progress json_parse f) = [] /\
  rejected_repos (load_progress json_parse f) = [].
Proof.
  assert (Hl : load_progress json_parse f = create_empty_progress /\
               exists e, load_body json_parse f = Err e).
  { destruct Hbad as [-> | (s & -> & [Hp | Hp])]; unfold load_progress, load_body;
      [| rewrite Hp ..]; split; eauto. }
  destruct Hl as [Hl He]. rewrite Hl. repeat split; auto.
Qed.

Lemma load_progress_corrupt_is_fresh_witness :
  (FileText "{" = FileUnreadable \/
   exists s, FileText "{" = FileText s /\
     ((fun _ : string => @None json_value) s = None \/
      (fun _ : string => @None json_value) s = Some JOther)) /\
  load_progress (fun _ => None) (FileText "{") = create_empty_progress.
Proof.
  split.
  - right. exists "{"%string. split; [reflexivity | left; reflexivity].
  - apply (load_progress_corrupt_is_fresh (fun _ => None) (FileText "{")).
    right. exists "{"%string. split; [reflexivity | left; reflexivity].
Defined.

(** ** C10 *)

Definition pm0 : pm_state := {| data := create_empty_progress; disk := SavedNone; clock := 1700000000%Z;
     saves := 0; save_io := io_ok |}.

(** C10 (as stated, refuted): a rejection does not change only the
    rejection list and the resume pointer: [last_update] is also
    rewritten, here from [None] to the current time. *)
Lemma update_progress_rejection_not_only_bookkeeping :
  data (update_progress pm0 None ["octo/repo"%string] 1) <>
  {| total_processed := total_processed (data pm0); last_index := 1;
     processed_repos := processed_repos (data pm0);
     rejected_repos := rejected_repos (data pm0) ++ ["octo/repo"%string];
     search_results := search_results (data pm0);
     last_update := last_update (data pm0); config_hash := config_hash (data pm0);
     current_batch := current_batch (data pm0); cache_exhausted := cache_exhausted (data pm0) |}.
Proof. vm_compute. discriminate. Qed.

(** C10 (amended): [update_progress] with no accepted record leaves
    [total_processed], [processed_repos], the cache, the config hash, the
    batch counter and the exhaustion flag unchanged, appends exactly the
    rejected names, sets [last_index] to the given index, and also sets
    [last_update] to the current time. *)
Theorem update_progress_rejection_frame (st : pm_state) (rejected : list string) (i : nat) :
  data (update_progress st None rejected i) =
    {| total_processed := total_processed (data st); last_index := i;
       processed_repos := processed_repos (data st);
       rejected_repos := rejected_repos (data st) ++ rejected;
       search_results := search_results (data st);
       last_update := Some (clock st); config_hash := config_hash (data st);
       current_batch := current_batch (data st); cache_exhausted := cache_exhausted (data st) |}.
Proof.
  unfold update_progress; simpl.
  destruct (Nat.eqb _ 0); reflexivity.
Qed.

(** ** C2 *)

(** C2: along any sequence of [update_progress] calls whose index is not
    below the stored one and [save_search_results] calls on a non-empty
    cache, the stored [last_index] never decreases. *)
Theorem last_index_monotone (st : pm_state) (ops : list pm_op) :
  ops_ok st ops ->
  LocallySorted le (map (fun s => last_index (data s)) (st :: run st ops)).
Proof.
  revert st. induction ops as [|op rest IH]; intros st Hok.
  - constructor.
  - destruct op as [r rej i | repos h]; cbn [run map ops_ok step] in *.
    + destruct Hok as [Hle Hok]. specialize (IH _ Hok).
      constructor; [exact IH|]. rewrite update_progress_last_index. exact Hle.
    + destruct Hok as [Hne Hok]. specialize (IH _ Hok).
      constructor; [exact IH|]. rewrite save_search_results_last_index by exact Hne. lia.
Qed.

Definition cand (n : string) (stars : Z) : Candidate :=
  {| full_name := n; html_url := "https://github.com/" ++ n; stargazers_count := Some stars;
     created_at := "2020-01-01T00:00:00Z"; updated_at := "2024-01-01T00:00:00Z";
     default_branch := "main" |}.

Definition pm_cached : pm_state :=
  {| data := {| total_processed := 0; last_index := 2; processed_repos := [];
                rejected_repos := ["a/a"%string; "b/b"%string];
                search_results := [cand "a/a" 900; cand "b/b" 850];
                last_update := None; config_hash := Some "cfg"%string;
                current_batch := 0; cache_exhausted := false |};
     disk := SavedNone; clock := 1700000000%Z;
     saves := 0; save_io := io_ok |}.

Definition ops_example : list pm_op :=
  [OpSave [cand "a/a" 900; cand "b/b" 850; cand "c/c" 700] "cfg";
   OpUpdate None ["c/c"%string] 3].

Lemma last_index_monotone_witness :
  ops_ok pm_cached ops_example /\
  LocallySorted le (map (fun s => last_index (data s)) (pm_cached :: run pm_cached ops_example)).
Proof.
  assert (H : ops_ok pm_cached ops_example).
  { simpl. split; [discriminate|]. split; [vm_compute; lia | exact I]. }
  split; [exact H | apply (last_index_monotone pm_cached ops_example H)].
Defined.

(** ** C1 *)

Lemma combine_map_fst {A B} (l : list A) (l' : list B) :
  List.length l = List.length l' -> map fst (combine l l') = l.
Proof.
  revert l'; induction l as [|a l IH]; intros [|b l'] H; simpl in *; try lia; auto.
  f_equal. apply IH. lia.
Qed.

Lemma combine_map_snd {A B} (l : list A) (l' : list B) :
  List.length l = List.length l' -> map snd (combine l l') = l'.
Proof.
  revert l'; induction l as [|a l IH]; intros [|b l'] H; simpl in *; try lia; auto.
  f_equal. apply IH. lia.
Qed.

Lemma process_batch_loop_spec (evaluate : Candidate -> option RepositoryData)
    (batch : list Candidate) : forall (st : pm_state) (s i : nat),
  let '(st', tr) := process_batch_loop evaluate st s i batch in
  tr = combine (map full_name batch) (seq (s + i + 1) (List.length batch)) /\
  (batch <> [] -> last_index (data st') = s + i + List.length batch).
Proof.
  induction batch as [|r rest IH]; intros st s i; simpl.
  - split; [reflexivity | congruence].
  - set (st1 := update_progress st (evaluate r) _ (s + i + 1)).
    specialize (IH st1 s (S i)).
    destruct (process_batch_loop evaluate st1 s (S i) rest) as [st2 tr] eqn:E.
    destruct IH as [Htr Hlast]. split.
    + rewrite Htr. simpl. do 2 f_equal. f_equal. lia.
    + intros _. destruct rest as [|r' rest'].
      * simpl in E. inversion E; subst. unfold st1.
        rewrite update_progress_last_index. simpl. lia.
      * rewrite Hlast by discriminate. simpl. lia.
Qed.

(** C1: a batch over [start, end) (non-empty, inside the cache)
    analyses the cached candidates in cache order, calls
    [update_progress] with index [current + 1] after each one whatever
    the acceptance decision, and leaves [last_index = end]. *)
Theorem process_batch_advances_to_end (evaluate : Candidate -> option RepositoryData)
    (st : pm_state) (repos : list Candidate) (start_index end_index : nat)
    (Hlt : start_index < end_index) (Hle : end_index <= List.length repos) :
  let '(st', tr) := process_batch evaluate st repos start_index end_index in
  map fst tr = map full_name (firstn (end_index - start_index) (skipn start_index repos)) /\
  map snd tr = seq (start_index + 1) (end_index - start_index) /\
  last_index (data st') = end_index.
Proof.
  unfold process_batch, py_slice.
  set (batch := firstn (end_index - start_index) (skipn start_index repos)).
  assert (Hlen : List.length batch = end_index - start_index).
  { unfold batch. rewrite length_firstn, length_skipn. lia. }
  pose proof (process_batch_loop_spec evaluate batch st start_index 0) as H.
  destruct (process_batch_loop evaluate st start_index 0 batch) as [st' tr].
  destruct H as [Htr Hlast].
  assert (Hne : batch <> []).
  { intro Hb. rewrite Hb in Hlen. simpl in Hlen. lia. }
  rewrite Nat.add_0_r in Htr, Hlast.
  rewrite Htr, combine_map_fst, combine_map_snd
    by (rewrite length_map, length_seq; reflexivity).
  repeat split.
  - rewrite Hlen. reflexivity.
  - rewrite Hlast by exact Hne. lia.
Qed.

Lemma process_batch_advances_to_end_witness :
  0 < 2 /\ 2 <= List.length [cand "a/a" 900; cand "b/b" 850; cand "c/c" 700] /\
  last_index (data (fst (process_batch (fun _ => None) pm0
      [cand "a/a" 900; cand "b/b" 850; cand "c/c" 700] 0 2))) = 2.
Proof.
  pose proof (process_batch_advances_to_end (fun _ => None) pm0
      [cand "a/a" 900; cand "b/b" 850; cand "c/c" 700] 0 2
      ltac:(lia) ltac:(simpl; lia)) as H.
  destruct (process_batch (fun _ => None) pm0 _ 0 2) as [st' tr].
  destruct H as (_ & _ & H).
  split; [lia | split; [simpl; lia | exact H]].
Defined.

(** ** C3 *)

Lemma save_search_results_results (st : pm_state) repos h :
  search_results (data (save_search_results st repos h)) = repos.
Proof.
  unfold save_search_results; simpl.
  destruct (search_results (data st)) as [|c l]; [|destruct (Nat.ltb (List.length (c :: l)) (List.length repos))]; reflexivity.
Qed.

(** The cache [_ensure_sufficient_repo_cache] starts from. *)
Definition cached_repos (st : pm_state) (h : string) : list Candidate :=
  match get_search_results st h with Some r => r | None => [] end.

(** The returned candidates whose name is not already cached. *)
Definition unique_new_of (repos new_repos : list Candidate) : list Candidate :=
  filter (fun r => negb (name_in (full_name r) (existing_names repos))) new_repos.

(** C3: when the resume index is at or past the end of the cache, the
    next window is requested with the last cached candidate's star count
    as ceiling; the cache becomes the old cache followed by the returned
    candidates whose name it did not contain; and when the answer is
    non-empty but brings no new name, the manager is left as it was and
    the session ends with no batch. *)
Theorem ensure_cache_widens_and_merges (BATCH_SIZE TOTAL_TARGET_REPOS : nat)
    (evaluate : Candidate -> option RepositoryData)
    (search : option Z -> list Candidate) (st : pm_state) (h : string)
    (Hexhausted : List.length (cached_repos st h) <= last_index (data st)) :
  let repos := cached_repos st h in
  let new_repos := search (next_ceiling repos) in
  let res := ensure_sufficient_repo_cache search st h (last_index (data st)) in
  fst res = repos ++ unique_new_of repos new_repos /\
  (unique_new_of repos new_repos <> [] ->
     search_results (data (snd res)) = repos ++ unique_new_of repos new_repos) /\
  (new_repos <> [] -> unique_new_of repos new_repos = [] ->
     res = (repos, st) /\
     (total_processed (data st) < TOTAL_TARGET_REPOS ->
      mine_repositories BATCH_SIZE TOTAL_TARGET_REPOS evaluate search st h
        = (finalize (finalize st), NoMoreWork))).
Proof.
  unfold cached_repos in *. cbv zeta.
  unfold mine_repositories, get_next_start_index, ensure_sufficient_repo_cache.
  destruct (get_search_results st h) as [r|]; cbv iota beta;
    rewrite (proj2 (Nat.ltb_ge _ _) Hexhausted); unfold unique_new_of.
  all: destruct (search (next_ceiling _)) as [|x xs].
  all: try (destruct (filter _ (x :: xs)) as [|y ys]).
  all: cbn [fst snd]; rewrite ?app_nil_r.
  all: split; [reflexivity | split; [intros Hu | intros Hn Hu]]; try congruence.
  all: try (exfalso; apply Hu; reflexivity).
  all: try apply save_search_results_results.
  all: split; [reflexivity | intros Hlt].
  all: rewrite (proj2 (Nat.leb_gt _ _) Hlt), ?(proj2 (Nat.leb_le _ _) Hexhausted), ?orb_true_r;
    reflexivity.
Qed.

Lemma ensure_cache_widens_and_merges_witness :
  List.length (cached_repos pm_cached "cfg") <= last_index (data pm_cached) /\
  snd (mine_repositories 200 1000 (fun _ => None) (fun _ => [cand "b/b" 850])
         pm_cached "cfg") = NoMoreWork.
Proof.
  assert (Hx : List.length (cached_repos pm_cached "cfg") <= last_index (data pm_cached))
    by (vm_compute; lia).
  split; [exact Hx|].
  destruct (ensure_cache_widens_and_merges 200 1000 (fun _ => None)
              (fun _ => [cand "b/b" 850]) pm_cached "cfg" Hx) as (_ & _ & H3).
  destruct H3 as [_ H]; [discriminate | vm_compute; reflexivity |].
  rewrite H by (vm_compute; lia). reflexivity.
Defined.

(** ** C4 and C5 *)

Lemma paginate_first_request (per : nat) (api : string -> nat -> option (list Candidate))
    (q : string) (p : nat) (ps : list nat) :
  exists rest, snd (paginate per api q (p :: ps)) = p :: rest.
Proof.
  simpl. destruct (api q p) as [items|]; [|eexists; reflexivity].
  destruct (Nat.ltb _ _); [eexists; reflexivity|].
  destruct (paginate per api q ps). eexists; reflexivity.
Qed.

Lemma zero_bound_first_request (api : string -> nat -> option (list Candidate)) :
  exists rest, snd (search_repositories_adaptive 50 "java" 100 api (Some 0%Z))
               = ("language:java stars:>=50"%string, 1) :: rest.
Proof.
  unfold search_repositories_adaptive.
  change (search_window 50 (Some 0%Z)) with (Some (StarsAtLeast 50)). cbv iota beta.
  change (window_query "java" (StarsAtLeast 50)) with "language:java stars:>=50"%string.
  unfold search_repositories_paginated.
  destruct (paginate_first_request 100 api "language:java stars:>=50" 1 (seq 2 9)) as [rest Hr].
  change (seq 1 10) with (1 :: seq 2 9).
  destruct (paginate 100 api _ (1 :: seq 2 9)) as [repos pages]. simpl in Hr |- *.
  rewrite Hr. eexists. reflexivity.
Qed.

(** C4 (fails at the bound 0): with the default floor [MIN_STARS = 50], the
    upper bound [max_stars = 0] is taken as "no bound" by the truthiness
    test [if max_stars]: the window built is [stars:>=50], which contains
    star values at or above the bound 0, and its first page is
    requested. *)
Theorem adaptive_search_zero_bound_builds_open_window
    (api : string -> nat -> option (list Candidate)) :
  search_window 50 (Some 0%Z) = Some (StarsAtLeast 50) /\
  in_window (StarsAtLeast 50) 50 = true /\
  exists rest, snd (search_repositories_adaptive 50 "java" 100 api (Some 0%Z))
               = ("language:java stars:>=50"%string, 1) :: rest.
Proof.
  split; [reflexivity | split; [reflexivity | apply zero_bound_first_request]].
Qed.

(** C5 (fails at the bound 0): the ceiling 0 is not above the floor 50, yet
    [search_repositories_adaptive] issues a search, and returns what the
    first window holds rather than an empty sequence. *)
Theorem adaptive_search_zero_bound_not_empty :
  (0 <= 50)%Z /\
  (forall api : string -> nat -> option (list Candidate),
     snd (search_repositories_adaptive 50 "java" 100 api (Some 0%Z)) <> []) /\
  fst (search_repositories_adaptive 50 "java" 100
         (fun _ _ => Some [cand "octo/repo" 60]) (Some 0%Z)) = [cand "octo/repo" 60].
Proof.
  split; [lia | split; [|reflexivity]].
  intros api. destruct (zero_bound_first_request api) as (rest & H).
  rewrite H. discriminate.
Qed.

(** ** C6 *)

(** C6: a candidate whose average issue-close time is at or above
    [MAX_ISSUE_CLOSE_DAYS] is rejected by [_process_repository] (the
    boundary [avg = max] included). *)
Theorem process_repository_rejects_slow (MAX_ISSUE_CLOSE_DAYS : Q)
    (get_prs : string -> list PullRequestData) (get_avg : string -> option Q)
    (get_langs : string -> option (list (string * Z))) (repo : Candidate) (avg_days : Q)
    (Havg : get_avg (full_name repo) = Some avg_days)
    (Hge : (MAX_ISSUE_CLOSE_DAYS <= avg_days)%Q) :
  process_repository MAX_ISSUE_CLOSE_DAYS get_prs get_avg get_langs repo = None.
Proof.
  unfold process_repository. destruct (get_prs (full_name repo)); [reflexivity|].
  rewrite Havg. apply Qle_bool_iff in Hge. rewrite Hge. reflexivity.
Qed.

Definition commit_head : CommitJson :=
  {| cj_sha := "bbbb"; cj_message := "Fix parser"; cj_author_name := "Dev";
     cj_author_email := Some "dev@example.org"%string; cj_author_date := 1200 |}.

Definition commit_base : CommitJson :=
  {| cj_sha := "aaaa"; cj_message := "Initial"; cj_author_name := "Dev";
     cj_author_email := None; cj_author_date := 1000 |}.

Definition pr_open : PullJson :=
  {| pj_number := 7; pj_title := "Fix parser"; pj_base_ref := "main";
     pj_created_at := 1000; pj_user_login := Some "dev"%string; pj_user_name := None;
     pj_commits_url := "https://api.github.com/repos/octo/repo/pulls/7/commits" |}.

Definition pulls0 (_ : string) : option (list PullJson) := Some [pr_open].
Definition commits0 (_ : string) : option (list CommitJson) := Some [commit_head].
(** The base branch holds one commit dated exactly at the PR's creation. *)
Definition branch0 (_ _ : string) (until : Z) : option (list CommitJson) :=
  Some (commits_until [commit_base] until).

Lemma process_repository_rejects_slow_witness :
  (fun _ : string => Some (3 # 1)%Q) "octo/repo"%string = Some (3 # 1)%Q /\
  ((3 # 1) <= (3 # 1))%Q /\
  process_repository (3 # 1) (get_pr_comparison_data pulls0 commits0 branch0)
    (fun _ => Some (3 # 1)%Q) (fun _ => None) (cand "octo/repo" 60) = None.
Proof.
  split; [reflexivity | split; [apply Qle_refl|]].
  apply (process_repository_rejects_slow (3 # 1) _ (fun _ => Some (3 # 1)%Q) _
           (cand "octo/repo" 60) (3 # 1)); [reflexivity | apply Qle_refl].
Defined.

(** ** C7 *)

Lemma in_get_pr_comparison_data pulls commits branch (repo : string) (d : PullRequestData) :
  In d (get_pr_comparison_data pulls commits branch repo) ->
  exists prs pr, pulls repo = Some prs /\ In pr prs /\
                 pr_entry commits branch repo pr = Some d.
Proof.
  unfold get_pr_comparison_data.
  destruct (pulls repo) as [prs|]; [|intros []].
  assert (Hin : forall l, In d (fold_right (fun pr acc => match pr_entry commits branch repo pr with
                                 | Some d => d :: acc | None => acc end) [] l) ->
                exists pr, In pr l /\ pr_entry commits branch repo pr = Some d).
  { induction l as [|pr l IH]; simpl; [intros []|].
    destruct (pr_entry commits branch repo pr) as [d'|] eqn:E.
    - intros [<- | H]; [exists pr; auto|].
      destruct (IH H) as (pr' & ? & ?); eauto.
    - intros H. destruct (IH H) as (pr' & ? & ?); eauto. }
  destruct prs as [|p ps]; [intros []|].
  intros H. destruct (Hin _ H) as (pr & ? & ?). eauto.
Qed.

Lemma pr_entry_some commits branch (repo : string) (pr : PullJson) (d : PullRequestData) :
  pr_entry commits branch repo pr = Some d ->
  exists c cs b bs,
    commits (pj_commits_url pr) = Some (c :: cs) /\
    branch repo (pj_base_ref pr) (pj_created_at pr) = Some (b :: bs) /\
    pr_number d = pj_number pr /\ base_branch d = pj_base_ref pr /\
    base_commit_sha d = cj_sha b /\ base_commit_date d = cj_author_date b.
Proof.
  unfold pr_entry, get_commit_before_date.
  destruct (commits (pj_commits_url pr)) as [[|c cs]|]; try discriminate.
  destruct (branch repo (pj_base_ref pr) (pj_created_at pr)) as [[|b bs]|]; try discriminate.
  intros H. injection H as <-. exists c, cs, b, bs. repeat split; reflexivity.
Qed.

(** C7 (amended): a [PullRequestData] is emitted only for an open PR whose
    commit list is non-empty and for which the base-branch commit query
    with [until = created_at] returns a non-empty list; its base commit is
    the first element of that answer. The code compares no dates itself:
    which commits precede the creation time is left to the API's
    [until] filter. *)
Theorem pr_record_needs_commits_and_base
    (pulls : string -> option (list PullJson)) (commits : string -> option (list CommitJson))
    (branch : string -> string -> Z -> option (list CommitJson))
    (repo : string) (d : PullRequestData)
    (Hin : In d (get_pr_comparison_data pulls commits branch repo)) :
  exists prs pr c cs b bs,
    pulls repo = Some prs /\ In pr prs /\
    commits (pj_commits_url pr) = Some (c :: cs) /\
    branch repo (pj_base_ref pr) (pj_created_at pr) = Some (b :: bs) /\
    pr_number d = pj_number pr /\ base_branch d = pj_base_ref pr /\
    base_commit_sha d = cj_sha b /\ base_commit_date d = cj_author_date b.
Proof.
  destruct (in_get_pr_comparison_data _ _ _ _ _ Hin) as (prs & pr & Hp & Hpr & He).
  destruct (pr_entry_some _ _ _ _ _ He) as (c & cs & b & bs & H1 & H2 & H3 & H4 & H5 & H6).
  exists prs, pr, c, cs, b, bs. repeat split; assumption.
Qed.

Definition pr_record0 : PullRequestData :=
  hd {| pr_number := 0; pr_title := ""; base_branch := ""; base_commit_sha := "";
        base_commit_date := 0; pr_commit_sha := ""; pr_commit_date := 0;
        comparison_url := ""; pr_author_name := ""; pr_author_email := None;
        pr_author_login := ""; pr_commits := [] |}
     (get_pr_comparison_data pulls0 commits0 branch0 "octo/repo").

Lemma pr_record_needs_commits_and_base_witness :
  In pr_record0 (get_pr_comparison_data pulls0 commits0 branch0 "octo/repo") /\
  base_commit_sha pr_record0 = "aaaa"%string.
Proof.
  assert (Hin : In pr_record0 (get_pr_comparison_data pulls0 commits0 branch0 "octo/repo"))
    by (vm_compute; left; reflexivity).
  split; [exact Hin|].
  destruct (pr_record_needs_commits_and_base pulls0 commits0 branch0 "octo/repo" pr_record0 Hin)
    as (prs & pr & c & cs & b & bs & Hp & Hpr & _ & Hb & _ & _ & Hsha & _).
  unfold pulls0 in Hp. injection Hp as <-. destruct Hpr as [<- | []].
  unfold branch0 in Hb. vm_compute in Hb. injection Hb as <- _. exact Hsha.
Defined.

(** C7 (as stated, refuted): with a base branch whose latest commit is
    dated exactly at the PR's creation, and the commit listing's [until]
    filter keeping commits at or before the date, a record is emitted
    whose base commit does not strictly precede the PR's creation. *)
Lemma pr_record_base_not_strictly_before :
  ~ (forall d, In d (get_pr_comparison_data pulls0 commits0 branch0 "octo/repo") ->
       exists pr, In pr [pr_open] /\ pj_number pr = pr_number d /\
                  (base_commit_date d < pj_created_at pr)%Z).
Proof.
  intros H.
  destruct (H pr_record0) as (pr & [<- | []] & _ & Hlt).
  - vm_compute. left. reflexivity.
  - vm_compute in Hlt. discriminate.
Qed.

(** ** C8 *)

(** The items a requested page contributes ([None]: nothing). *)
Definition page_items (api : string -> nat -> option (list Candidate)) (q : string) (p : nat)
    : list Candidate :=
  match api q p with Some it => it | None => [] end.

Lemma in_removelast_cons {A} (x a : A) (l : list A) :
  In x (removelast (a :: l)) -> x = a \/ In x (removelast l).
Proof.
  destruct l as [|b l]; simpl; [intros []|].
  intros [-> | H]; auto.
Qed.

Lemma paginate_spec (per : nat) (api : string -> nat -> option (list Candidate)) (q : string)
    (pages : list nat) :
  let '(res, req) := paginate per api q pages in
  res = List.concat (map (page_items api q) req) /\
  req = firstn (List.length req) pages /\
  (pages <> [] -> req <> []) /\
  (forall p, In p (removelast req) -> exists it, api q p = Some it /\ per <= List.length it) /\
  (List.length req < List.length pages ->
     api q (last req 0) = None \/
     exists it, api q (last req 0) = Some it /\ List.length it < per).
Proof.
  induction pages as [|p ps IH]; simpl.
  - repeat split; auto; [intros _ [] | lia].
  - unfold page_items at 1.
    destruct (api q p) as [items|] eqn:Ep.
    + destruct (Nat.ltb (List.length items) per) eqn:Es.
      * apply Nat.ltb_lt in Es. simpl. rewrite Ep, app_nil_r.
        repeat split; auto; try (intros _; discriminate); try (intros _ []).
        intros _. right. eauto.
      * apply Nat.ltb_ge in Es.
        destruct (paginate per api q ps) as [more req] eqn:Er.
        destruct IH as (Hres & Hpre & Hne & Hfull & Hlast).
        simpl. rewrite Ep, Hres. repeat split.
        -- f_equal. exact Hpre.
        -- congruence.
        -- intros x Hx. apply in_removelast_cons in Hx as [-> | Hx]; eauto.
        -- intros Hlt. destruct req as [|r rs].
           ++ destruct ps; [simpl in Hlt; lia|]. exfalso; apply Hne; [discriminate | reflexivity].
           ++ apply Hlast. simpl in Hlt |- *. lia.
    + simpl. rewrite Ep. repeat split; auto; try (intros _; discriminate); try (intros _ []).
Qed.

Lemma concat_pages_bound (per : nat) (api : string -> nat -> option (list Candidate))
    (q : string) (req : list nat)
    (Hpage : forall p items, api q p = Some items -> List.length items <= per) :
  List.length (List.concat (map (page_items api q) req)) <= List.length req * per.
Proof.
  induction req as [|p req IH]; simpl; [lia|].
  rewrite length_app. unfold page_items at 1.
  destruct (api q p) as [items|] eqn:E; [apply Hpage in E|]; simpl; lia.
Qed.

(** C8: [_search_repositories_paginated] requests pages 1, 2, ... in
    order, at most 10 of them, and stops after the first page that is
    missing or shorter than the page size; the result is the
    concatenation of the pages fetched, every page but the last being
    full; when the API never returns more than a page's worth of items,
    the result has at most [10 * REPOS_PER_PAGE] candidates. *)
Theorem paginated_search_bounded (REPOS_PER_PAGE : nat)
    (api : string -> nat -> option (list Candidate)) (query : string)
    (Hpage : forall p items, api query p = Some items -> List.length items <= REPOS_PER_PAGE) :
  let '(res, req) := search_repositories_paginated REPOS_PER_PAGE api query in
  req = firstn (List.length req) (seq 1 10) /\
  1 <= List.length req <= 10 /\
  res = List.concat (map (page_items api query) req) /\
  (forall p, In p (removelast req) ->
     exists it, api query p = Some it /\ List.length it = REPOS_PER_PAGE) /\
  (List.length req < 10 ->
     api query (last req 0) = None \/
     exists it, api query (last req 0) = Some it /\ List.length it < REPOS_PER_PAGE) /\
  List.length res <= 10 * REPOS_PER_PAGE.
Proof.
  unfold search_repositories_paginated.
  pose proof (paginate_spec REPOS_PER_PAGE api query (seq 1 10)) as H.
  destruct (paginate REPOS_PER_PAGE api query (seq 1 10)) as [res req].
  destruct H as (Hres & Hpre & Hne & Hfull & Hlast).
  assert (Hlen : List.length req <= 10).
  { rewrite Hpre, length_firstn, length_seq. lia. }
  assert (Hpos : 1 <= List.length req).
  { destruct req; [exfalso; apply Hne; [discriminate | reflexivity] | simpl; lia]. }
  repeat split; auto.
  - intros p Hp. destruct (Hfull p Hp) as (it & Hit & Hge).
    exists it. split; [exact Hit|]. apply Hpage in Hit. lia.
  - rewrite Hres. eapply Nat.le_trans; [apply concat_pages_bound; exact Hpage|].
    apply Nat.mul_le_mono_r. exact Hlen.
Qed.

(** A concrete search: two full pages of 2 candidates, then a short one. *)
Definition api_three_pages (_ : string) (p : nat) : option (list Candidate) :=
  match p with
  | 1 => Some [cand "a/a" 900; cand "b/b" 850]
  | 2 => Some [cand "c/c" 700; cand "d/d" 650]
  | 3 => Some [cand "e/e" 600]
  | _ => Some []
  end.

Lemma paginated_search_bounded_witness :
  (forall p items, api_three_pages "q" p = Some items -> List.length items <= 2) /\
  snd (search_repositories_paginated 2 api_three_pages "q") = [1; 2; 3] /\
  List.length (fst (search_repositories_paginated 2 api_three_pages "q")) <= 10 * 2.
Proof.
  assert (Hpage : forall p items, api_three_pages "q" p = Some items -> List.length items <= 2).
  { intros p items H. destruct p as [|[|[|[|p]]]]; simpl in H; injection H as <-; simpl; lia. }
  split; [exact Hpage | split; [vm_compute; reflexivity|]].
  pose proof (paginated_search_bounded 2 api_three_pages "q" Hpage) as H.
  destruct (search_repositories_paginated 2 api_three_pages "q") as [res req].
  destruct H as (_ & _ & _ & _ & _ & H). exact H.
Defined.

(* ================================================================== *)
(** * Further properties of the code *)

(** ** ProgressManager *)

Definition opt_list {A : Type} (o : option A) : list A :=
  match o with Some x => [x] | None => [] end.

Lemma update_progress_fields (st : pm_state) (r : option RepositoryData) (rej : list string) (i : nat) :
  let st' := update_progress st r rej i in
  let n := total_processed (data st) + List.length (opt_list r) in
  total_processed (data st') = n /\
  processed_repos (data st') = processed_repos (data st) ++ opt_list r /\
  rejected_repos (data st') = rejected_repos (data st) ++ rej /\
  disk st' = (if Nat.eqb (n mod 5) 0
              then write_file (save_io st (saves st)) (data st') (disk st) else disk st).
Proof.
  unfold update_progress. destruct r as [rd|]; cbn -[Nat.modulo];
    rewrite ?Nat.add_1_r, ?Nat.add_0_r;
    match goal with |- context [Nat.eqb ?x 0] => destruct (Nat.eqb x 0) end;
    cbn; rewrite ?app_nil_r; repeat split; reflexivity.
Qed.

Lemma update_progress_io (st : pm_state) (r : option RepositoryData) (rej : list string) (i : nat) :
  saves st <= saves (update_progress st r rej i) /\
  save_io (update_progress st r rej i) = save_io st.
Proof.
  unfold update_progress. destruct r as [rd|]; cbn -[Nat.modulo];
    match goal with |- context [Nat.eqb ?x 0] => destruct (Nat.eqb x 0) end;
    cbn; split; auto.
Qed.

Lemma get_search_results_some (st : pm_state) (h : string) (r : list Candidate) :
  get_search_results st h = Some r ->
  config_hash (data st) = Some h /\ search_results (data st) = r /\ r <> [].
Proof.
  unfold get_search_results.
  destruct (config_hash (data st)) as [h'|]; destruct (search_results (data st)) as [|c l];
    try discriminate.
  destruct (String.eqb_spec h' h) as [->|Hne]; intros H; [|discriminate].
  injection H as <-. repeat split; auto. discriminate.
Qed.

Lemma save_search_results_file (st : pm_state) repos h :
  disk (save_search_results st repos h)
    = write_file (save_io st (saves st)) (data (save_search_results st repos h)) (disk st) /\
  saves (save_search_results st repos h) = S (saves st) /\
  save_io (save_search_results st repos h) = save_io st.
Proof. split; [|split]; reflexivity. Qed.

Lemma step_io (st : pm_state) (op : pm_op) :
  saves st <= saves (step st op) /\ save_io (step st op) = save_io st.
Proof.
  destruct op as [r rej i | repos h]; cbn [step]; [apply update_progress_io|].
  destruct (save_search_results_file st repos h) as (_ & -> & ->). split; [lia | reflexivity].
Qed.

(** X2: after [save_search_results(repos, h)] with a non-empty list,
    [get_search_results(h)] returns that list. *)
Theorem save_then_get_search_results (st : pm_state) (repos : list Candidate) (h : string)
    (Hne : repos <> []) :
  get_search_results (save_search_results st repos h) h = Some repos.
Proof.
  unfold get_search_results. rewrite save_search_results_results.
  assert (Hh : config_hash (data (save_search_results st repos h)) = Some h).
  { unfold save_search_results; simpl.
    destruct (search_results (data st)) as [|c l]; [|destruct (Nat.ltb (List.length (c :: l)) (List.length repos))];
      reflexivity. }
  rewrite Hh, String.eqb_refl. destruct repos; [congruence | reflexivity].
Qed.

Lemma save_then_get_search_results_witness :
  [cand "a/a" 900] <> [] /\
  get_search_results (save_search_results pm0 [cand "a/a" 900] "cfg") "cfg"
    = Some [cand "a/a" 900].
Proof.
  split; [discriminate|].
  apply save_then_get_search_results. discriminate.
Defined.

Lemma succ_mod5 (b : nat) : S b mod 5 = 0 \/ S b mod 5 = S (b mod 5).
Proof.
  pose proof (Nat.div_mod_eq b 5). pose proof (Nat.mod_upper_bound b 5 ltac:(lia)).
  destruct (Nat.eq_dec (b mod 5) 4) as [E|E].
  - left. symmetry. apply (Nat.mod_unique (S b) 5 (b / 5 + 1) 0); lia.
  - right. symmetry. apply (Nat.mod_unique (S b) 5 (b / 5) (S (b mod 5))); lia.
Qed.

(** Every write still to come succeeds, and between the file and memory
    there is no multiple of 5 accepted records: the file is behind by at
    most [total mod 5]. *)
Definition flush_lag_ok (st : pm_state) : Prop :=
  (forall n, saves st <= n -> save_io st n = WriteOk) /\
  exists d0, disk st = Saved d0 /\
    total_processed d0 <= total_processed (data st) /\
    total_processed (data st) - total_processed d0 <= total_processed (data st) mod 5.

Lemma flush_lag_step (st : pm_state) (op : pm_op) :
  flush_lag_ok st -> flush_lag_ok (step st op).
Proof.
  intros (Hio & d0 & Hd & Hle & Hlag).
  destruct (step_io st op) as [Hs Heq].
  split.
  { intros n Hn. rewrite Heq. apply Hio. lia. }
  assert (Hw : save_io st (saves st) = WriteOk) by (apply Hio; lia).
  destruct op as [r rej i | repos h]; cbn [step].
  - destruct (update_progress_fields st r rej i) as (Ht & _ & _ & Hdisk).
    cbv zeta in Ht, Hdisk. rewrite Hw in Hdisk.
    destruct (Nat.eqb _ 0) eqn:E in Hdisk.
    + eexists; split; [exact Hdisk | lia].
    + exists d0. split; [rewrite Hdisk; exact Hd|]. rewrite Ht.
      apply Nat.eqb_neq in E.
      destruct r as [rd|]; cbn [opt_list List.length] in *; rewrite ?Nat.add_1_r, ?Nat.add_0_r in *; [|lia].
      destruct (succ_mod5 (total_processed (data st))) as [E'|E']; [congruence|].
      rewrite E'. lia.
  - destruct (save_search_results_file st repos h) as (Hdisk & _ & _).
    rewrite Hw in Hdisk. eexists; split; [exact Hdisk | lia].
Qed.

Lemma flush_lag_bound (s : pm_state) :
  flush_lag_ok s -> exists d0, disk s = Saved d0 /\
    total_processed d0 <= total_processed (data s) <= total_processed d0 + 4.
Proof.
  intros (_ & d0 & Hd & Hle & Hlag). exists d0. split; [exact Hd|].
  pose proof (Nat.mod_upper_bound (total_processed (data s)) 5 ltac:(lia)). lia.
Qed.

(** X4: starting from a state just written to the file, as long as every
    write of the progress file succeeds, after any sequence of
    [update_progress] and [save_search_results] calls the file is never
    more than 4 accepted repositories behind memory ([update_progress]
    writes whenever [total_processed] reaches a multiple of 5,
    [save_search_results] always writes). *)
Theorem flush_lag_at_most_four (st : pm_state) (ops : list pm_op)
    (Hflushed : disk st = Saved (data st))
    (Hio : forall n, saves st <= n -> save_io st n = WriteOk) :
  Forall (fun s => exists d0, disk s = Saved d0 /\
            total_processed d0 <= total_processed (data s) <= total_processed d0 + 4)
         (run st ops).
Proof.
  assert (Hinv : flush_lag_ok st)
    by (split; [exact Hio | exists (data st); split; [exact Hflushed | lia]]).
  clear Hflushed Hio. revert st Hinv.
  induction ops as [|op rest IH]; intros st Hinv; simpl; [constructor|].
  pose proof (flush_lag_step st op Hinv) as Hs.
  constructor; [apply flush_lag_bound; exact Hs | apply IH; exact Hs].
Qed.

Lemma flush_lag_at_most_four_witness :
  disk (finalize pm0) = Saved (data (finalize pm0)) /\
  (forall n, saves (finalize pm0) <= n -> save_io (finalize pm0) n = WriteOk) /\
  Forall (fun s => exists d0, disk s = Saved d0 /\
            total_processed d0 <= total_processed (data s) <= total_processed d0 + 4)
         (run (finalize pm0) [OpUpdate None ["x/y"%string] 1]).
Proof.
  assert (Hio : forall n, saves (finalize pm0) <= n -> save_io (finalize pm0) n = WriteOk)
    by (intros n _; reflexivity).
  split; [reflexivity|]. split; [exact Hio|].
  apply flush_lag_at_most_four; [reflexivity | exact Hio].
Defined.

Lemma step_data_indep (s1 s2 : pm_state) (op : pm_op) :
  data s1 = data s2 -> clock s1 = clock s2 ->
  data (step s1 op) = data (step s2 op) /\ clock (step s1 op) = clock (step s2 op).
Proof.
  intros Hd Hc. destruct op as [r rej i | repos h]; cbn [step].
  - unfold update_progress, time_time. rewrite Hd, Hc.
    destruct r; cbn -[Nat.modulo];
      match goal with |- context [Nat.eqb ?x 0] => destruct (Nat.eqb x 0) end;
      split; reflexivity.
  - unfold save_search_results, time_time. rewrite Hd, Hc. split; reflexivity.
Qed.

Lemma run_data_indep (ops : list pm_op) : forall s1 s2 : pm_state,
  data s1 = data s2 -> clock s1 = clock s2 ->
  map data (run s1 ops) = map data (run s2 ops).
Proof.
  induction ops as [|op rest IH]; intros s1 s2 Hd Hc; simpl; [reflexivity|].
  destruct (step_data_indep s1 s2 op Hd Hc) as [Hd' Hc'].
  rewrite Hd'. f_equal. apply IH; assumption.
Qed.

Lemma step_open_error (s : pm_state) (op : pm_op) :
  (forall n, saves s <= n -> save_io s n = OpenError) ->
  disk (step s op) = disk s /\
  (forall n, saves (step s op) <= n -> save_io (step s op) n = OpenError).
Proof.
  intros Hs. destruct (step_io s op) as [Hle Heq]. split.
  - destruct op as [r rej i | repos h]; cbn [step].
    + destruct (update_progress_fields s r rej i) as (_ & _ & _ & Hdisk).
      cbv zeta in Hdisk. rewrite (Hs (saves s) (le_n _)) in Hdisk.
      destruct (Nat.eqb _ 0); exact Hdisk.
    + destruct (save_search_results_file s repos h) as (Hdisk & _ & _).
      rewrite (Hs (saves s) (le_n _)) in Hdisk. exact Hdisk.
  - intros n Hn. rewrite Heq. apply Hs. lia.
Qed.

(** X26: the exceptions of [_save_progress] are swallowed: once the
    progress file can no longer be opened for writing, any sequence of
    [update_progress] and [save_search_results] calls goes on exactly as
    with a working file system in memory, while the file keeps the
    content it had, however many repositories are accepted. *)
Theorem unwritable_progress_file_frozen (st : pm_state) (ops : list pm_op)
    (Hio : forall n, saves st <= n -> save_io st n = OpenError) :
  Forall (fun s => disk s = disk st) (run st ops) /\
  map data (run st ops)
    = map data (run {| data := data st; disk := disk st; clock := clock st;
                       saves := saves st; save_io := io_ok |} ops).
Proof.
  split; [|apply run_data_indep; reflexivity].
  assert (H : forall s, disk s = disk st ->
            (forall n, saves s <= n -> save_io s n = OpenError) ->
            Forall (fun x => disk x = disk st) (run s ops)).
  { induction ops as [|op rest IH]; intros s Hd Hs; simpl; [constructor|].
    destruct (step_open_error s op Hs) as [Hd' Hs'].
    constructor; [congruence | apply IH; [congruence | exact Hs']]. }
  apply H; [reflexivity | exact Hio].
Qed.

Definition rd_sample : RepositoryData :=
  {| rd_name := "octo/repo"; rd_url := "https://github.com/octo/repo"; rd_stars := Some 120%Z;
     rd_created_at := "2020-01-01T00:00:00Z"; rd_updated_at := "2024-01-01T00:00:00Z";
     rd_avg_issue_close_days := 3%Q; rd_prs := []; rd_default_branch := "main";
     rd_languages := None; rd_dominant_language := None |}.

Definition pm_unwritable : pm_state :=
  {| data := data pm0; disk := Saved (data pm0); clock := clock pm0;
     saves := 0; save_io := fun _ => OpenError |}.

Lemma unwritable_progress_file_frozen_witness :
  (forall n, saves pm_unwritable <= n -> save_io pm_unwritable n = OpenError) /\
  let ops := [OpUpdate (Some rd_sample) [] 1; OpUpdate (Some rd_sample) [] 2;
              OpUpdate (Some rd_sample) [] 3; OpUpdate (Some rd_sample) [] 4;
              OpUpdate (Some rd_sample) [] 5] in
  Forall (fun s => disk s = disk pm_unwritable) (run pm_unwritable ops) /\
  map data (run pm_unwritable ops)
    = map data (run {| data := data pm_unwritable; disk := disk pm_unwritable;
                       clock := clock pm_unwritable; saves := saves pm_unwritable;
                       save_io := io_ok |} ops).
Proof.
  assert (Hio : forall n, saves pm_unwritable <= n -> save_io pm_unwritable n = OpenError)
    by (intros n _; reflexivity).
  split; [exact Hio|]. exact (unwritable_progress_file_frozen pm_unwritable _ Hio).
Defined.


(** ** GitHubMiner *)

Definition is_rejected (evaluate : Candidate -> option RepositoryData) (r : Candidate) : bool :=
  match evaluate r with Some _ => false | None => true end.

Lemma process_batch_loop_fields (evaluate : Candidate -> option RepositoryData)
    (batch : list Candidate) : forall (st : pm_state) (s i : nat),
  let st' := fst (process_batch_loop evaluate st s i batch) in
  processed_repos (data st') =
    processed_repos (data st) ++ flat_map (fun r => opt_list (evaluate r)) batch /\
  rejected_repos (data st') =
    rejected_repos (data st) ++ map full_name (filter (is_rejected evaluate) batch) /\
  total_processed (data st') =
    total_processed (data st) + List.length (flat_map (fun r => opt_list (evaluate r)) batch).
Proof.
  induction batch as [|r rest IH]; intros st s i; cbn zeta.
  - simpl. rewrite !app_nil_r, Nat.add_0_r. auto.
  - simpl process_batch_loop.
    set (st1 := update_progress st (evaluate r) _ (s + i + 1)).
    specialize (IH st1 s (S i)). cbv zeta in IH.
    destruct (process_batch_loop evaluate st1 s (S i) rest) as [st2 tr] eqn:E.
    simpl fst in *. destruct IH as (Hp & Hr & Ht).
    destruct (update_progress_fields st (evaluate r)
                (match evaluate r with Some _ => [] | None => [full_name r] end) (s + i + 1))
      as (Ht1 & Hp1 & Hr1 & _).
    fold st1 in Ht1, Hp1, Hr1.
    rewrite Hp, Hr, Ht, Hp1, Hr1, Ht1. simpl flat_map. simpl filter.
    change (is_rejected evaluate r) with (match evaluate r with Some _ => false | None => true end).
    destruct (evaluate r); simpl; rewrite <- ?app_assoc; simpl;
      (split; [reflexivity | split; [reflexivity | lia]]).
Qed.

Lemma flat_map_opt_filter_length (evaluate : Candidate -> option RepositoryData) (l : list Candidate) :
  List.length (flat_map (fun r => opt_list (evaluate r)) l) +
  List.length (filter (is_rejected evaluate) l) = List.length l.
Proof.
  induction l as [|r l IH]; simpl; [reflexivity|].
  change (is_rejected evaluate r) with (match evaluate r with Some _ => false | None => true end).
  destruct (evaluate r); simpl; lia.
Qed.

(** X5: [_process_batch] over [repos[start:end]] appends the accepted
    records to [processed_repos] and the names of the rejected
    candidates to [rejected_repos], both in cache order; [total_processed]
    grows by the number accepted, so the [total_processed] plus
    [total_rejected] of [get_statistics] grow by the batch length. *)
Theorem process_batch_bookkeeping (evaluate : Candidate -> option RepositoryData)
    (st : pm_state) (repos : list Candidate) (start_index end_index : nat) :
  let batch := py_slice repos start_index end_index in
  let st' := fst (process_batch evaluate st repos start_index end_index) in
  get_processed_repos st' =
    get_processed_repos st ++ flat_map (fun r => opt_list (evaluate r)) batch /\
  rejected_repos (data st') =
    rejected_repos (data st) ++ map full_name (filter (is_rejected evaluate) batch) /\
  stat_total_processed (get_statistics st') + stat_total_rejected (get_statistics st') =
    stat_total_processed (get_statistics st) + stat_total_rejected (get_statistics st)
    + List.length batch.
Proof.
  cbv zeta. unfold process_batch, get_processed_repos, get_statistics; simpl.
  destruct (process_batch_loop_fields evaluate (py_slice repos start_index end_index) st start_index 0)
    as (Hp & Hr & Ht).
  rewrite Hp, Hr, Ht, length_app, length_map.
  pose proof (flat_map_opt_filter_length evaluate (py_slice repos start_index end_index)).
  repeat split; lia.
Qed.

(** X6: when [_ensure_sufficient_repo_cache] extends a cache returned by
    [get_search_results], the stored list is already the extended one
    when [save_search_results] compares lengths, so neither
    [cache_exhausted] nor [last_index] is reset: the "expanding" branch
    of [save_search_results] never fires from here. *)
Theorem ensure_cache_keeps_exhausted_flag (search : option Z -> list Candidate)
    (st : pm_state) (h : string) (start_index : nat)
    (Hcached : get_search_results st h <> None) :
  let st' := snd (ensure_sufficient_repo_cache search st h start_index) in
  cache_exhausted (data st') = cache_exhausted (data st) /\
  last_index (data st') = last_index (data st).
Proof.
  cbv zeta. unfold ensure_sufficient_repo_cache.
  destruct (get_search_results st h) as [r|] eqn:Eg; [|congruence].
  apply get_search_results_some in Eg. destruct Eg as (_ & Hr & Hne).
  destruct (Nat.ltb start_index (List.length r)); [auto|].
  destruct (search (next_ceiling r)) as [|c cs]; [auto|].
  destruct (filter _ _) as [|u us] eqn:Ef; [auto|].
  unfold save_search_results, set_data; simpl.
  destruct r as [|x xs]; [congruence|]. simpl.
  rewrite Nat.ltb_irrefl. auto.
Qed.

Definition search_c (_ : option Z) : list Candidate := [cand "c/c" 700].

Lemma ensure_cache_keeps_exhausted_flag_witness :
  get_search_results (mark_cache_exhausted pm_cached) "cfg" <> None /\
  cache_exhausted (data (snd (ensure_sufficient_repo_cache search_c
                                (mark_cache_exhausted pm_cached) "cfg" 2))) =
  cache_exhausted (data (mark_cache_exhausted pm_cached)) /\
  last_index (data (snd (ensure_sufficient_repo_cache search_c
                                (mark_cache_exhausted pm_cached) "cfg" 2))) =
  last_index (data (mark_cache_exhausted pm_cached)).
Proof.
  split; [vm_compute; discriminate|].
  apply (ensure_cache_keeps_exhausted_flag search_c (mark_cache_exhausted pm_cached) "cfg" 2).
  vm_compute; discriminate.
Defined.

Lemma py_slice_length {A} (l : list A) (i j : nat) (Hj : j <= List.length l) :
  List.length (py_slice l i j) = j - i.
Proof. unfold py_slice. rewrite length_firstn, length_skipn. lia. Qed.

(** X7: a session of [mine_repositories] that processes a batch
    [start, end) has [start < end <= start + BATCH_SIZE] and leaves the
    resume pointer at [end]. When the batch starts on a multiple of
    [BATCH_SIZE], a full batch is followed by the next batch file number,
    while a short batch (the cache ran out) leaves the next session
    starting inside the same [batch_number], so its
    [_save_batch_results] writes the same file name again. *)
Theorem session_batch_files (BATCH_SIZE TOTAL_TARGET_REPOS : nat)
    (evaluate : Candidate -> option RepositoryData) (search : option Z -> list Candidate)
    (st st' : pm_state) (h OUTPUT_FILE : string) (s e : nat)
    (HB : 0 < BATCH_SIZE)
    (Hrun : mine_repositories BATCH_SIZE TOTAL_TARGET_REPOS evaluate search st h
            = (st', BatchDone s e)) :
  s < e <= s + BATCH_SIZE /\
  get_next_start_index st' = e /\
  (s mod BATCH_SIZE = 0 -> e = s + BATCH_SIZE ->
     batch_number BATCH_SIZE e = option_map S (batch_number BATCH_SIZE s)) /\
  (s mod BATCH_SIZE = 0 -> e < s + BATCH_SIZE ->
     batch_json_file BATCH_SIZE OUTPUT_FILE e = batch_json_file BATCH_SIZE OUTPUT_FILE s).
Proof.
  unfold mine_repositories in Hrun.
  destruct (Nat.leb TOTAL_TARGET_REPOS (total_processed (data st))); [discriminate|].
  destruct (ensure_sufficient_repo_cache search st h (get_next_start_index st))
    as [repos st1] eqn:Ec.
  destruct (match repos with [] => true | _ => false end
            || Nat.leb (List.length repos) (get_next_start_index st)) eqn:Eb; [discriminate|].
  set (s0 := get_next_start_index st) in *.
  set (e0 := Nat.min (s0 + BATCH_SIZE) (List.length repos)) in *.
  destruct (process_batch evaluate st1 repos s0 e0) as [st2 tr] eqn:Ep.
  injection Hrun as <- <- <-.
  apply orb_false_iff in Eb. destruct Eb as [_ Hlen]. apply Nat.leb_gt in Hlen.
  assert (Hse : s0 < e0 <= s0 + BATCH_SIZE) by (unfold e0; lia).
  split; [exact Hse|]. split.
  - unfold process_batch in Ep.
    pose proof (process_batch_loop_spec evaluate (py_slice repos s0 e0) st1 s0 0) as Hs.
    rewrite Ep in Hs. destruct Hs as [_ Hlast].
    rewrite py_slice_length in Hlast by (unfold e0; lia).
    unfold get_next_start_index, finalize, save_progress; simpl.
    rewrite Hlast; [lia|].
    intros Hnil. apply (f_equal (@List.length Candidate)) in Hnil.
    rewrite py_slice_length in Hnil by (unfold e0; lia). simpl in Hnil. lia.
  - clearbody e0. unfold batch_json_file, batch_number.
    destruct BATCH_SIZE as [|b]; [lia|].
    pose proof (Nat.div_mod_eq s0 (S b)) as Hdm.
    split; intros Hmod He.
    + cbn [option_map]. rewrite Hmod in Hdm.
      assert (Hq : e0 / S b = s0 / S b + 1).
      { symmetry. apply (Nat.div_unique e0 (S b) (s0 / S b + 1) 0); nia. }
      rewrite Hq. f_equal. lia.
    + rewrite Hmod in Hdm.
      assert (Hq : e0 / S b = s0 / S b).
      { symmetry. apply (Nat.div_unique e0 (S b) (s0 / S b) (e0 - s0)); nia. }
      rewrite Hq. reflexivity.
Qed.

Definition search_abc (_ : option Z) : list Candidate :=
  [cand "a/a" 900; cand "b/b" 850; cand "c/c" 700].

Lemma session_batch_files_witness :
  0 < 5 /\
  mine_repositories 5 1000 (fun _ => None) search_abc pm0 "cfg"
    = (fst (mine_repositories 5 1000 (fun _ => None) search_abc pm0 "cfg"), BatchDone 0 3) /\
  (0 < 3 <= 0 + 5 /\
   get_next_start_index (fst (mine_repositories 5 1000 (fun _ => None) search_abc pm0 "cfg")) = 3 /\
   (0 mod 5 = 0 -> 3 = 0 + 5 -> batch_number 5 3 = option_map S (batch_number 5 0)) /\
   (0 mod 5 = 0 -> 3 < 0 + 5 ->
      batch_json_file 5 "github_mining_results.json" 3
      = batch_json_file 5 "github_mining_results.json" 0)).
Proof.
  assert (Hrun : mine_repositories 5 1000 (fun _ => None) search_abc pm0 "cfg"
    = (fst (mine_repositories 5 1000 (fun _ => None) search_abc pm0 "cfg"), BatchDone 0 3))
    by (vm_compute; reflexivity).
  split; [lia|]. split; [exact Hrun|].
  exact (session_batch_files 5 1000 (fun _ => None) search_abc pm0 _ "cfg"
           "github_mining_results.json" 0 3 ltac:(lia) Hrun).
Defined.

Lemma max_language_first_max (best : string * Z) (rest : list (string * Z)) :
  exists pre c post, best :: rest = pre ++ (max_language best rest, c) :: post /\
    Forall (fun kv => (snd kv < c)%Z) pre /\ Forall (fun kv => (snd kv <= c)%Z) post.
Proof.
  revert best. induction rest as [|kv rest IH]; intros best; simpl.
  - exists [], (snd best), []. destruct best as [k c]. simpl. auto.
  - destruct (Z.ltb (snd best) (snd kv)) eqn:E.
    + apply Z.ltb_lt in E.
      destruct (IH kv) as (pre & c & post & Heq & Hpre & Hpost).
      assert (Hkv : (snd kv <= c)%Z).
      { destruct pre as [|x pre']; simpl in Heq; injection Heq as Hx Hr.
        - rewrite Hx. simpl. lia.
        - inversion Hpre; subst. lia. }
      exists (best :: pre), c, post. simpl. rewrite Heq. split; [reflexivity|].
      split; [constructor; [lia | exact Hpre] | exact Hpost].
    + apply Z.ltb_ge in E.
      destruct (IH best) as (pre & c & post & Heq & Hpre & Hpost).
      destruct pre as [|x pre']; simpl in Heq; injection Heq as Hx Hr.
      * subst post. exists [], c, (kv :: rest). simpl. split; [rewrite <- Hx; reflexivity|].
        split; [constructor|]. constructor; [|exact Hpost]. rewrite Hx in E. simpl in E. lia.
      * inversion Hpre; subst.
        exists (x :: kv :: pre'), c, post. simpl. split; [rewrite Hr at 1; reflexivity|].
        split; [|exact Hpost]. constructor; [assumption|]. constructor; [lia | assumption].
Qed.

(** X9: the dominant language is the first language of maximal byte
    count: every language listed before it has a strictly smaller count,
    every one after it a count at most its own. *)
Theorem dominant_language_first_max (langs : list (string * Z)) (k : string)
    (Hdom : dominant_language (Some langs) = Some k) :
  exists pre c post, langs = pre ++ (k, c) :: post /\
    Forall (fun kv => (snd kv < c)%Z) pre /\ Forall (fun kv => (snd kv <= c)%Z) post.
Proof.
  destruct langs as [|best rest]; [discriminate|]. simpl in Hdom. injection Hdom as <-.
  apply max_language_first_max.
Qed.

Lemma dominant_language_first_max_witness :
  dominant_language (Some [("Java"%string, 500%Z); ("Kotlin"%string, 500%Z); ("Shell"%string, 20%Z)])
    = Some "Java"%string /\
  exists pre c post,
    [("Java"%string, 500%Z); ("Kotlin"%string, 500%Z); ("Shell"%string, 20%Z)]
      = pre ++ ("Java"%string, c) :: post /\
    Forall (fun kv => (snd kv < c)%Z) pre /\ Forall (fun kv => (snd kv <= c)%Z) post.
Proof.
  split; [reflexivity|]. apply dominant_language_first_max. reflexivity.
Defined.

Lemma pick_email_truthy (e : option string) (cs : list CommitData) :
  py_truthy_str e = true -> pick_email e cs = e.
Proof.
  intros He. induction cs as [|c cs IH]; simpl; [reflexivity|].
  rewrite He. simpl. exact IH.
Qed.

Lemma pick_email_find (e : option string) (cs : list CommitData) :
  py_truthy_str e = false ->
  pick_email e cs = match find (fun c => py_truthy_str (cd_author_email c)) cs with
                    | Some c => cd_author_email c
                    | None => e
                    end.
Proof.
  intros He. induction cs as [|c cs IH]; simpl; [reflexivity|].
  rewrite He. simpl. destruct (py_truthy_str (cd_author_email c)) eqn:Ec.
  - apply pick_email_truthy. exact Ec.
  - exact IH.
Qed.

(** X10: the PR author email is the email of the FIRST commit that has
    a non-empty one ([None] if none has), not of the last commit. *)
Theorem pick_email_first_truthy (commits : list CommitData) :
  pick_email None commits =
  match find (fun c => py_truthy_str (cd_author_email c)) commits with
  | Some c => cd_author_email c
  | None => None
  end.
Proof. apply pick_email_find. reflexivity. Qed.

Lemma last_map_to_commit_data (c : CommitJson) (cs : list CommitJson) :
  last (map to_commit_data (c :: cs)) (to_commit_data c) = to_commit_data (last (c :: cs) c).
Proof.
  generalize (c :: cs) as l. intros l.
  induction l as [|a l IH]; [reflexivity|].
  destruct l as [|b l]; [reflexivity|]. exact IH.
Qed.

(** X12: the PR author name is the profile name when it is non-empty and
    differs from the login; otherwise (no name, an empty name, or a name
    equal to the login) it is the last commit's author name, or the login
    when that is empty. *)
Theorem pr_author_name_rules (commits : string -> option (list CommitJson))
    (branch : string -> string -> Z -> option (list CommitJson))
    (repo : string) (pr : PullJson) (d : PullRequestData)
    (Hd : pr_entry commits branch repo pr = Some d) :
  let login := match pj_user_login pr with Some l => l | None => "unknown"%string end in
  exists c cs,
    commits (pj_commits_url pr) = Some (c :: cs) /\
    (forall n, pj_user_name pr = Some n -> n <> ""%string -> n <> login ->
               pr_author_name d = n) /\
    (pj_user_name pr = None \/ pj_user_name pr = Some ""%string \/ pj_user_name pr = Some login ->
     pr_author_name d =
       (let lname := cj_author_name (last (c :: cs) c) in
        if String.eqb lname "" then login else lname)).
Proof.
  cbv zeta. unfold pr_entry in Hd.
  destruct (commits (pj_commits_url pr)) as [[|c cs]|]; try discriminate.
  destruct (get_commit_before_date branch repo (pj_base_ref pr) (pj_created_at pr)) as [b|];
    [|discriminate].
  injection Hd as <-. exists c, cs. split; [reflexivity|]. simpl pr_author_name.
  change (match map to_commit_data cs with
          | [] => to_commit_data c
          | _ :: _ => last (map to_commit_data cs) (to_commit_data c)
          end) with (last (map to_commit_data (c :: cs)) (to_commit_data c)).
  rewrite last_map_to_commit_data. simpl cd_author_name.
  set (login := match pj_user_login pr with Some l => l | None => "unknown"%string end).
  split.
  - intros n Hn Hne Hnl. rewrite Hn. unfold py_truthy_str.
    apply String.eqb_neq in Hne. rewrite Hne. simpl.
    apply String.eqb_neq in Hnl. rewrite Hnl. reflexivity.
  - intros Hcase.
    assert (H0 : (if py_truthy_str (pj_user_name pr)
                  then match pj_user_name pr with Some n => n | None => login end
                  else login) = login).
    { destruct Hcase as [-> | [-> | ->]]; [reflexivity | reflexivity|].
      unfold py_truthy_str. destruct (String.eqb login ""); reflexivity. }
    rewrite H0, String.eqb_refl.
    change (match cs with [] => c | _ :: _ => last cs c end) with (last (c :: cs) c).
    destruct (String.eqb (cj_author_name (last (c :: cs) c)) ""); reflexivity.
Qed.

Definition pr_named : PullJson :=
  {| pj_number := 8; pj_title := "Refactor"; pj_base_ref := "main";
     pj_created_at := 1000; pj_user_login := Some "dev"%string; pj_user_name := Some "dev"%string;
     pj_commits_url := "https://api.github.com/repos/octo/repo/pulls/8/commits" |}.

Definition pr_named_entry : PullRequestData :=
  match pr_entry commits0 branch0 "octo/repo" pr_named with
  | Some d => d
  | None => pr_record0
  end.

Lemma pr_author_name_rules_witness :
  pr_entry commits0 branch0 "octo/repo" pr_named = Some pr_named_entry /\
  exists c cs,
    commits0 (pj_commits_url pr_named) = Some (c :: cs) /\
    (forall n, pj_user_name pr_named = Some n -> n <> ""%string -> n <> "dev"%string ->
               pr_author_name pr_named_entry = n) /\
    (pj_user_name pr_named = None \/ pj_user_name pr_named = Some ""%string \/
     pj_user_name pr_named = Some "dev"%string ->
     pr_author_name pr_named_entry =
       (let lname := cj_author_name (last (c :: cs) c) in
        if String.eqb lname "" then "dev"%string else lname)).
Proof.
  assert (H : pr_entry commits0 branch0 "octo/repo" pr_named = Some pr_named_entry)
    by (vm_compute; reflexivity).
  split; [exact H|]. exact (pr_author_name_rules commits0 branch0 "octo/repo" pr_named _ H).
Defined.

(** X13: [s.split('\n')[0]] contains no newline and is a prefix of [s],
    followed either by nothing or by a newline. *)
Theorem first_line_prefix (s : string) :
  (forall n, String.get n (first_line s) <> Some (Ascii.ascii_of_nat 10)) /\
  exists rest, s = (first_line s ++ rest)%string /\
    (rest = ""%string \/ exists r, rest = String (Ascii.ascii_of_nat 10) r).
Proof.
  induction s as [|c s IH]; simpl.
  - split; [intros n; destruct n; discriminate|]. exists ""%string. auto.
  - destruct (Ascii.eqb_spec c (Ascii.ascii_of_nat 10)) as [->|Hc].
    + split; [intros n; destruct n; discriminate|].
      exists (String (Ascii.ascii_of_nat 10) s). split; [reflexivity|]. right. eauto.
    + destruct IH as [Hno (rest & Hs & Hr)]. split.
      * intros [|n]; simpl; [congruence | apply Hno].
      * exists rest. split; [simpl; rewrite <- Hs; reflexivity | exact Hr].
Qed.

(** X14: [get_pr_comparison_data] returns at most one record per open PR
    listed, and nothing when the PR list request fails. *)
Theorem get_pr_comparison_data_length (pulls : string -> option (list PullJson))
    (commits : string -> option (list CommitJson))
    (branch : string -> string -> Z -> option (list CommitJson)) (repo : string) :
  List.length (get_pr_comparison_data pulls commits branch repo) <=
  match pulls repo with Some prs => List.length prs | None => 0 end.
Proof.
  unfold get_pr_comparison_data. destruct (pulls repo) as [[|pr prs]|]; simpl; try lia.
  destruct (pr_entry commits branch repo pr); simpl; apply le_n_S || apply le_S;
    clear pr; induction prs as [|pr prs IH]; simpl; try lia;
    destruct (pr_entry commits branch repo pr); simpl; lia.
Qed.

(** ** GitHubAPIService *)

Lemma assoc_get_set {J : Type} (k : string) (v : J) (l : list (string * J)) :
  assoc_get J k (assoc_set J k v l) = Some v.
Proof.
  induction l as [|[k' v'] l IH]; simpl; [rewrite String.eqb_refl; reflexivity|].
  destruct (String.eqb k' k) eqn:E; simpl; [rewrite String.eqb_refl; reflexivity|].
  rewrite E. exact IH.
Qed.

Lemma make_request_hit {J : Type} (net : list (net_event J)) (st : api_state J) (key : string) (v : J) :
  assoc_get J key (cache J st) = Some v ->
  make_request J net st key true = (Some (cached_response J v), st, net).
Proof. intros H. destruct net as [|e net]; simpl; rewrite H; reflexivity. Qed.

Definition retried_status {J : Type} (r : response J) : bool :=
  Z.eqb (status_code J r) 429 ||
  (Z.eqb (status_code J r) 403 &&
   Z.eqb (match rate_limit_remaining J r with Some n => n | None => 0%Z end) 0).

(** X17: [make_request] never hands back a 429 answer, nor a 403 answer
    whose X-RateLimit-Remaining is 0 or missing: those are retried
    (each retry consuming one more network answer); the answers and
    state it returns come after the ones it consumed. *)
Theorem make_request_never_returns_rate_limited {J : Type} (net : list (net_event J))
    (st : api_state J) (key : string) (use_cache : bool) (r : response J)
    (st' : api_state J) (net' : list (net_event J))
    (Hr : make_request J net st key use_cache = (Some r, st', net')) :
  retried_status r = false /\ exists consumed, net = consumed ++ net'.
Proof.
  revert st Hr. induction net as [|e net IH]; intros st Hr; simpl in Hr.
  - destruct (if use_cache then assoc_get J key (cache J st) else None); [|discriminate].
    injection Hr as <- <- <-. split; [reflexivity | exists []; reflexivity].
  - destruct (if use_cache then assoc_get J key (cache J st) else None) as [v|].
    { injection Hr as <- <- <-. split; [reflexivity | exists []; reflexivity]. }
    destruct e as [resp|]; [|discriminate].
    assert (Hfin : forall st1,
      (if Z.eqb (status_code J resp) 200 && use_cache then
         match body J resp with
         | None => (None, st1, net)
         | Some v => (Some resp, {| cache := assoc_set J key v (cache J st1);
                                    request_count := request_count J st1;
                                    saved_cache := if Nat.eqb (request_count J st1 mod 10) 0
                                                   then write_file (cache_io J st1 (request_count J st1))
                                                          (assoc_set J key v (cache J st1))
                                                          (saved_cache J st1)
                                                   else saved_cache J st1;
                                    cache_io := cache_io J st1 |}, net)
         end
       else (Some resp, st1, net)) = (Some r, st', net') ->
      r = resp /\ net' = net).
    { intros st1 H. destruct (Z.eqb (status_code J resp) 200 && use_cache);
        [destruct (body J resp)|]; inversion H; auto. }
    unfold retried_status.
    destruct (Z.eqb (status_code J resp) 403) eqn:E403.
    + destruct (Z.eqb (match rate_limit_remaining J resp with Some n => n | None => 0%Z end) 0) eqn:E0.
      * destruct (IH _ Hr) as [Hs (c & Hc)]. split; [exact Hs|]. exists (NetResponse resp :: c).
        rewrite Hc. reflexivity.
      * destruct (Hfin _ Hr) as [-> ->]. rewrite E403, E0. simpl.
        apply Z.eqb_eq in E403. rewrite E403. split; [reflexivity|].
        exists [NetResponse resp]. reflexivity.
    + destruct (Z.eqb (status_code J resp) 429) eqn:E429.
      * destruct (IH _ Hr) as [Hs (c & Hc)]. split; [exact Hs|]. exists (NetResponse resp :: c).
        rewrite Hc. reflexivity.
      * destruct (Hfin _ Hr) as [-> ->]. rewrite E403, E429. split; [reflexivity|].
        exists [NetResponse resp]. reflexivity.
Qed.

Definition resp_of (status : Z) (remaining : option Z) (v : string) : response string :=
  {| status_code := status; rate_limit_remaining := remaining; body := Some v; next_link := None |}.

Definition api_empty : api_state string := {| cache := []; request_count := 0; saved_cache := SavedNone; cache_io := io_ok |}.

Lemma make_request_never_returns_rate_limited_witness :
  make_request string
    [NetResponse (resp_of 429 None "x"); NetResponse (resp_of 403 (Some 0%Z) "x");
     NetResponse (resp_of 200 (Some 4999%Z) "[]")] api_empty "k" true
  = (Some (resp_of 200 (Some 4999%Z) "[]"),
     {| cache := [("k"%string, "[]"%string)]; request_count := 3; saved_cache := SavedNone; cache_io := io_ok |}, []) /\
  retried_status (resp_of 200 (Some 4999%Z) "[]") = false /\
  exists consumed,
    [NetResponse (resp_of 429 None "x"); NetResponse (resp_of 403 (Some 0%Z) "x");
     NetResponse (resp_of 200 (Some 4999%Z) "[]")] = consumed ++ [].
Proof.
  assert (H : make_request string
    [NetResponse (resp_of 429 None "x"); NetResponse (resp_of 403 (Some 0%Z) "x");
     NetResponse (resp_of 200 (Some 4999%Z) "[]")] api_empty "k" true
  = (Some (resp_of 200 (Some 4999%Z) "[]"),
     {| cache := [("k"%string, "[]"%string)]; request_count := 3; saved_cache := SavedNone; cache_io := io_ok |}, []))
    by reflexivity.
  split; [exact H|]. exact (make_request_never_returns_rate_limited _ _ _ _ _ _ _ H).
Defined.

Lemma make_request_200_cached {J : Type} (net : list (net_event J)) (st : api_state J)
    (key : string) (r : response J) (st1 : api_state J) (net1 : list (net_event J)) :
  make_request J net st key true = (Some r, st1, net1) ->
  Z.eqb (status_code J r) 200 = true ->
  exists v, body J r = Some v /\ assoc_get J key (cache J st1) = Some v.
Proof.
  revert st. induction net as [|e net IH]; intros st Hr H200; simpl in Hr.
  - destruct (assoc_get J key (cache J st)) as [v|] eqn:Eh; [|discriminate].
    injection Hr as <- <- <-. exists v. auto.
  - destruct (assoc_get J key (cache J st)) as [v|] eqn:Eh.
    { injection Hr as <- <- <-. exists v. auto. }
    destruct e as [resp|]; [|discriminate].
    destruct (Z.eqb (status_code J resp) 403) eqn:E403;
      [destruct (Z.eqb (match rate_limit_remaining J resp with Some n => n | None => 0%Z end) 0)|
       destruct (Z.eqb (status_code J resp) 429)];
      try (apply (IH _ Hr H200)).
    all: destruct (Z.eqb (status_code J resp) 200) eqn:E200; cbn [andb] in Hr;
      [destruct (body J resp) as [v|] eqn:Eb; [|discriminate]; injection Hr as <- <- <-;
       exists v; split; [exact Eb | apply assoc_get_set]
      | injection Hr as <- _ _; congruence].
Qed.

Lemma get_json_response_cached {J : Type} (net : list (net_event J)) (st : api_state J)
    (key : string) (v : J) (st1 : api_state J) (net1 : list (net_event J)) :
  get_json_response J net st key = (Some v, st1, net1) ->
  assoc_get J key (cache J st1) = Some v.
Proof.
  unfold get_json_response.
  destruct (make_request J net st key true) as [[[r|] st2] net2] eqn:Em; [|discriminate].
  destruct (Z.eqb (status_code J r) 200) eqn:E200; [|discriminate].
  intros H. injection H as Hb <- <-.
  destruct (make_request_200_cached _ _ _ _ _ _ Em E200) as (v' & Hv' & Hc).
  congruence.
Qed.

Lemma assoc_get_set_other {J : Type} (k key : string) (v : J) (l : list (string * J)) :
  k <> key -> assoc_get J key (assoc_set J k v l) = assoc_get J key l.
Proof.
  intros Hne. induction l as [|[k' v'] l IH]; simpl.
  - apply String.eqb_neq in Hne. rewrite Hne. reflexivity.
  - destruct (String.eqb k' k) eqn:E; simpl.
    + apply String.eqb_eq in E. subst k'. apply String.eqb_neq in Hne. rewrite Hne. reflexivity.
    + destruct (String.eqb k' key); [reflexivity | exact IH].
Qed.

(** A cached entry survives any call of [make_request], for any key and
    any [use_cache]. *)
Lemma make_request_keeps_entry {J : Type} (net : list (net_event J)) :
  forall (st : api_state J) (k key : string) (u : bool) (v : J) resp st' net',
  assoc_get J key (cache J st) = Some v ->
  make_request J net st k u = (resp, st', net') ->
  assoc_get J key (cache J st') = Some v.
Proof.
  induction net as [|e net IH]; intros st k key u v resp st' net' Hv Hr; simpl in Hr.
  - destruct (if u then assoc_get J k (cache J st) else None);
      injection Hr as _ <- _; exact Hv.
  - destruct (if u then assoc_get J k (cache J st) else None) eqn:Ehit.
    { injection Hr as _ <- _. exact Hv. }
    destruct e as [r|]; [|injection Hr as _ <- _; exact Hv].
    set (st1 := {| cache := cache J st; request_count := S (request_count J st);
                   saved_cache := saved_cache J st; cache_io := cache_io J st |}) in Hr.
    assert (Hv1 : assoc_get J key (cache J st1) = Some v) by exact Hv.
    assert (Hfin :
      (if Z.eqb (status_code J r) 200 && u then
         match body J r with
         | None => (None, st1, net)
         | Some w => (Some r, {| cache := assoc_set J k w (cache J st1);
                                 request_count := request_count J st1;
                                 saved_cache := if Nat.eqb (request_count J st1 mod 10) 0
                                                then write_file (cache_io J st1 (request_count J st1))
                                                       (assoc_set J k w (cache J st1))
                                                       (saved_cache J st1)
                                                else saved_cache J st1;
                                 cache_io := cache_io J st1 |}, net)
         end
       else (Some r, st1, net)) = (resp, st', net') ->
      assoc_get J key (cache J st') = Some v).
    { intros H. destruct (Z.eqb (status_code J r) 200 && u) eqn:Eu.
      - destruct (body J r) as [w|]; injection H as _ <- _; [|exact Hv1].
        simpl. apply andb_true_iff in Eu. destruct Eu as [_ ->].
        destruct (String.eqb_spec k key) as [->|Hne].
        + rewrite Hv in Ehit. discriminate.
        + rewrite (assoc_get_set_other _ _ _ _ Hne). exact Hv.
      - injection H as _ <- _. exact Hv1. }
    destruct (Z.eqb (status_code J r) 403);
      [destruct (Z.eqb (match rate_limit_remaining J r with Some n => n | None => 0%Z end) 0)
      | destruct (Z.eqb (status_code J r) 429)];
      first [exact (IH st1 k key u v resp st' net' Hv1 Hr) | exact (Hfin Hr)].
Qed.

(** Successive calls of [make_request]; [get_json_response] makes the
    same call, with [use_cache=True]. *)
Fixpoint make_requests {J : Type} (net : list (net_event J)) (st : api_state J)
    (calls : list (string * bool)) : api_state J * list (net_event J) :=
  match calls with
  | [] => (st, net)
  | (k, u) :: rest =>
      let '(_, st1, net1) := make_request J net st k u in make_requests net1 st1 rest
  end.

(** X18: once [get_json_response] has returned a JSON document for a key,
    after any further requests (for any keys, with or without the cache,
    against any network answers), a call with that key returns the same
    document from the cache, without a network call. *)
Theorem get_json_response_memoised {J : Type} (net : list (net_event J)) (st : api_state J)
    (key : string) (v : J) (st1 : api_state J) (net1 : list (net_event J))
    (Hfirst : get_json_response J net st key = (Some v, st1, net1))
    (calls : list (string * bool)) (later : list (net_event J)) :
  let '(st2, net2) := make_requests later st1 calls in
  get_json_response J net2 st2 key = (Some v, st2, net2).
Proof.
  pose proof (get_json_response_cached _ _ _ _ _ _ Hfirst) as Hc.
  clear Hfirst. revert st1 later Hc.
  induction calls as [|[k u] rest IH]; intros st1 later Hc; simpl.
  - unfold get_json_response. rewrite (make_request_hit later st1 key v Hc). reflexivity.
  - destruct (make_request J later st1 k u) as [[resp st2] net2] eqn:Em.
    apply IH. exact (make_request_keeps_entry _ _ _ _ _ _ _ _ _ Hc Em).
Qed.

Lemma get_json_response_memoised_witness :
  get_json_response string [NetResponse (resp_of 429 None "x"); NetResponse (resp_of 200 None "[1]")]
    api_empty "k"
  = (Some "[1]"%string,
     {| cache := [("k"%string, "[1]"%string)]; request_count := 2; saved_cache := SavedNone; cache_io := io_ok |}, []) /\
  let '(st2, net2) := make_requests [NetResponse (resp_of 200 None "[2]"); NetFailure]
                        {| cache := [("k"%string, "[1]"%string)]; request_count := 2;
                           saved_cache := SavedNone; cache_io := io_ok |}
                        [("other"%string, true); ("k"%string, false)] in
  get_json_response string net2 st2 "k" = (Some "[1]"%string, st2, net2).
Proof.
  assert (H : get_json_response string
    [NetResponse (resp_of 429 None "x"); NetResponse (resp_of 200 None "[1]")] api_empty "k"
  = (Some "[1]"%string,
     {| cache := [("k"%string, "[1]"%string)]; request_count := 2; saved_cache := SavedNone; cache_io := io_ok |}, []))
    by reflexivity.
  split; [exact H|].
  exact (get_json_response_memoised _ _ _ _ _ _ H [("other"%string, true); ("k"%string, false)]
           [NetResponse (resp_of 200 None "[2]"); NetFailure]).
Defined.

(** ** IssueService *)

Lemma issue_pages_first (parse_date : string -> option Q) (p : nat)
    (net : list (net_event (list IssueJson))) (st : api_state (list IssueJson))
    (url : string) (params : list (string * string)) (t : Q) (c : nat) :
  issue_pages parse_date (S p) net st url params t c =
  let '(data, st1, net1) := get_json_response _ net st (get_cache_key url params) in
  match data with
  | Some items => let '(t', c') := page_stats parse_date items t c in (t', c', st1, net1)
  | None => (t, c, st1, net1)
  end.
Proof.
  cbn [issue_pages]. generalize (get_cache_key url params) as key. intros key.
  destruct (get_json_response _ net st key) as [[data st1] net1] eqn:Eg.
  destruct data as [[|i items]|]; [reflexivity| |reflexivity].
  pose proof (get_json_response_cached _ _ _ _ _ _ Eg) as Hc.
  destruct (page_stats parse_date (i :: items) t c) as [t' c'].
  rewrite (make_request_hit net1 st1 _ _ Hc). reflexivity.
Qed.

(** X20: [get_avg_issue_close_time] only ever analyses the first page of
    closed issues, whatever [MAX_ISSUE_PAGES]: the request that looks for
    a ['next'] link has the key just cached by the page request, so it is
    answered from the cache, by a response without links. The network
    answers consumed are those of the first page request alone. *)
Theorem issue_avg_first_page_only (parse_date : string -> option Q) (MAX_ISSUE_PAGES : nat)
    (ISSUES_PER_PAGE : string) (net : list (net_event (list IssueJson)))
    (st : api_state (list IssueJson)) (repo : string)
    (Hpages : 0 < MAX_ISSUE_PAGES) :
  let key := get_cache_key ("https://api.github.com/repos/" ++ repo ++ "/issues")%string
               [("state"%string, "closed"%string); ("per_page"%string, ISSUES_PER_PAGE)] in
  let '(data, st1, net1) := get_json_response _ net st key in
  get_avg_issue_close_time parse_date MAX_ISSUE_PAGES ISSUES_PER_PAGE net st repo =
  (match data with
   | Some items => let '(t, c) := page_stats parse_date items 0 0 in average_days t c
   | None => None
   end, st1, net1).
Proof.
  cbv zeta. unfold get_avg_issue_close_time.
  destruct MAX_ISSUE_PAGES as [|p]; [lia|]. rewrite issue_pages_first.
  destruct (get_json_response _ net st _) as [[data st1] net1].
  destruct data as [items|]; [|reflexivity].
  destruct (page_stats parse_date items 0 0) as [t c]. reflexivity.
Qed.

Definition issue_closed (created closed : string) : IssueJson :=
  {| is_pull_request := false; issue_created_at := Some created; issue_closed_at := Some closed |}.

(** Dates as seconds, for the concrete answers below. *)
Definition parse_seconds (s : string) : option Q :=
  option_map (fun z => inject_Z z) (py_int s).

(** A first page with a [next] link, then a second page: only the first
    is used. *)
Definition issue_net : list (net_event (list IssueJson)) :=
  [NetResponse {| status_code := 200; rate_limit_remaining := Some 4000%Z;
                  body := Some [issue_closed "0" "86400"];
                  next_link := Some "https://api.github.com/repositories/1/issues?page=2"%string |};
   NetResponse {| status_code := 200; rate_limit_remaining := Some 3999%Z;
                  body := Some [issue_closed "0" "864000"]; next_link := None |}].

Definition issue_st0 : api_state (list IssueJson) := {| cache := []; request_count := 0; saved_cache := SavedNone; cache_io := io_ok |}.

Lemma issue_avg_first_page_only_witness :
  0 < 3 /\
  option_map Qred
    (fst (fst (get_avg_issue_close_time parse_seconds 3 "100" issue_net issue_st0 "octo/repo")))
    = Some 1%Q /\
  (let key := get_cache_key ("https://api.github.com/repos/" ++ "octo/repo" ++ "/issues")%string
                [("state"%string, "closed"%string); ("per_page"%string, "100"%string)] in
   let '(data, st1, net1) := get_json_response _ issue_net issue_st0 key in
   get_avg_issue_close_time parse_seconds 3 "100" issue_net issue_st0 "octo/repo" =
   (match data with
    | Some items => let '(t, c) := page_stats parse_seconds items 0 0 in average_days t c
    | None => None
    end, st1, net1)).
Proof.
  split; [lia|]. split; [vm_compute; reflexivity|].
  apply issue_avg_first_page_only. lia.
Defined.

Lemma page_stats_shift (parse_date : string -> option Q) (items : list IssueJson) (t : Q) (c : nat) :
  snd (page_stats parse_date items t c) =
  c + List.length (filter (fun i => match issue_duration parse_date i with Some _ => true | None => false end) items).
Proof.
  revert t c. induction items as [|i items IH]; intros t c; simpl; [lia|].
  destruct (issue_duration parse_date i); simpl; rewrite IH; lia.
Qed.

(** X21: on a page, pull requests listed among the issues never change
    [total_seconds] or [count]; [count] grows by the number of issues that
    have both dates and whose dates parse, so the average is [None]
    exactly when no issue of the page qualifies. *)
Theorem page_stats_ignores_pull_requests (parse_date : string -> option Q)
    (items : list IssueJson) (t : Q) (c : nat) :
  page_stats parse_date items t c =
    page_stats parse_date (filter (fun i => negb (is_pull_request i)) items) t c /\
  snd (page_stats parse_date items t c) =
    c + List.length (filter (fun i => match issue_duration parse_date i with
                                      | Some _ => true | None => false end) items) /\
  (let '(t', c') := page_stats parse_date items 0 0 in
   average_days t' c' = None <->
   forall i, In i items -> issue_duration parse_date i = None).
Proof.
  split; [|split; [apply page_stats_shift|]].
  - revert t c. induction items as [|i items IH]; intros t c; [reflexivity|].
    simpl. destruct (is_pull_request i) eqn:Ep; simpl.
    + unfold issue_duration at 1. rewrite Ep. apply IH.
    + destruct (issue_duration parse_date i); apply IH.
  - pose proof (page_stats_shift parse_date items 0 0) as Hs.
    destruct (page_stats parse_date items 0 0) as [t' c']. simpl in Hs.
    unfold average_days. rewrite Hs. simpl.
    split.
    + intros H i Hi. destruct (issue_duration parse_date i) eqn:Ed; [|reflexivity].
      exfalso. destruct (Nat.eqb_spec (List.length (filter (fun i => match issue_duration parse_date i with
                                      | Some _ => true | None => false end) items)) 0) as [E|E];
        [|discriminate].
      apply length_zero_iff_nil in E.
      assert (Hf : In i (filter (fun i => match issue_duration parse_date i with
                                      | Some _ => true | None => false end) items))
        by (apply filter_In; rewrite Ed; auto).
      rewrite E in Hf. exact Hf.
    + intros H.
      replace (filter _ items) with (@nil IssueJson); [reflexivity|].
      symmetry. clear Hs.
      induction items as [|i items IHi]; [reflexivity|]. simpl.
      rewrite (H i (or_introl eq_refl)). apply IHi. intros j Hj. apply H. right. exact Hj.
Qed.

(** ** DataProcessor *)

Lemma existsb_eqb_false (n : string) (l : list string) :
  existsb (String.eqb n) l = false <-> ~ In n l.
Proof.
  rewrite <- Bool.not_true_iff_false, existsb_exists. split.
  - intros H Hin. apply H. exists n. split; [exact Hin | apply String.eqb_refl].
  - intros H (m & Hm & E). apply String.eqb_eq in E. subst m. exact (H Hm).
Qed.

Lemma dedup_loop_spec {R : Type} (get_name : R -> option string) (repos : list R) :
  forall seen u d, dedup_loop R get_name seen repos = (u, d) ->
  List.length u + d = List.length repos /\
  NoDup (map get_name u) /\
  Forall (fun r => exists n, get_name r = Some n /\ n <> ""%string /\ ~ In n seen) u /\
  (forall r n, In r repos -> get_name r = Some n -> n <> ""%string ->
     In n seen \/ exists r', In r' u /\ get_name r' = Some n) /\
  (forall r, In r u -> exists pre post, repos = pre ++ r :: post /\
     Forall (fun x => get_name x <> get_name r) pre).
Proof.
  induction repos as [|x rest IH]; intros seen u d H; simpl in H.
  { injection H as <- <-. simpl.
    split; [reflexivity|]. split; [constructor|]. split; [constructor|].
    split; intros r; simpl; tauto. }
  destruct (get_name x) as [n|] eqn:En.
  - destruct (negb (String.eqb n "") && negb (existsb (String.eqb n) seen)) eqn:Ec.
    + apply andb_true_iff in Ec. destruct Ec as [Ne Nin].
      apply negb_true_iff, String.eqb_neq in Ne. apply negb_true_iff, existsb_eqb_false in Nin.
      destruct (dedup_loop R get_name (n :: seen) rest) as [u' d'] eqn:Ed.
      injection H as <- <-.
      destruct (IH _ _ _ Ed) as (Hl & Hnd & Hf & Hall & Hfirst).
      split; [simpl; lia|]. split.
      { simpl. constructor; [|exact Hnd]. rewrite En. intros Hin.
        apply in_map_iff in Hin. destruct Hin as (r' & Hr' & Hin').
        rewrite Forall_forall in Hf. destruct (Hf r' Hin') as (m & Hm & _ & Hnot).
        rewrite Hm in Hr'. injection Hr' as ->. apply Hnot. left. reflexivity. }
      split.
      { constructor; [exists n; auto|].
        eapply Forall_impl; [|exact Hf]. intros r (m & Hm & Hne & Hnot).
        exists m. split; [exact Hm|]. split; [exact Hne|]. intros Hin. apply Hnot. right. exact Hin. }
      split.
      { intros r m [<- | Hin] Hm Hne.
        - right. exists x. split; [left; reflexivity | exact Hm].
        - destruct (Hall r m Hin Hm Hne) as [[<- | Hs] | (r' & Hr' & Hn')].
          + right. exists x. split; [left; reflexivity | exact En].
          + left. exact Hs.
          + right. exists r'. split; [right; exact Hr' | exact Hn']. }
      { intros r [<- | Hin].
        - exists [], rest. split; [reflexivity | constructor].
        - destruct (Hfirst r Hin) as (pre & post & Hrest & Hpre).
          exists (x :: pre), post. split; [simpl; rewrite Hrest; reflexivity|].
          constructor; [|exact Hpre].
          rewrite Forall_forall in Hf. destruct (Hf r Hin) as (m & Hm & _ & Hnot).
          rewrite En, Hm. intros E. injection E as ->. apply Hnot. left. reflexivity. }
    + destruct (dedup_loop R get_name seen rest) as [u' d'] eqn:Ed.
      injection H as <- <-.
      destruct (IH _ _ _ Ed) as (Hl & Hnd & Hf & Hall & Hfirst).
      split; [simpl; lia|]. split; [exact Hnd|]. split; [exact Hf|]. split.
      { intros r m [<- | Hin] Hm Hne; [|exact (Hall r m Hin Hm Hne)].
        rewrite En in Hm. injection Hm as <-. left.
        apply andb_false_iff in Ec. destruct Ec as [E | E].
        - apply negb_false_iff, String.eqb_eq in E. contradiction.
        - apply negb_false_iff in E. destruct (existsb (String.eqb n) seen) eqn:E';
            [|discriminate].
          destruct (proj1 (existsb_exists _ _) E') as (k & Hk & Ek).
          apply String.eqb_eq in Ek. subst k. exact Hk. }
      { intros r Hin. destruct (Hfirst r Hin) as (pre & post & Hrest & Hpre).
        exists (x :: pre), post. split; [simpl; rewrite Hrest; reflexivity|].
        constructor; [|exact Hpre].
        rewrite Forall_forall in Hf. destruct (Hf r Hin) as (m & Hm & Hne & Hnot).
        rewrite En, Hm. intros E. injection E as <-.
        apply andb_false_iff in Ec. destruct Ec as [E | E].
        - apply negb_false_iff, String.eqb_eq in E. contradiction.
        - apply negb_false_iff in E. destruct (existsb (String.eqb n) seen) eqn:E';
            [|discriminate].
          apply Hnot. destruct (proj1 (existsb_exists _ _) E') as (k & Hk & Ek).
          apply String.eqb_eq in Ek. subst k. exact Hk. }
  - destruct (dedup_loop R get_name seen rest) as [u' d'] eqn:Ed.
    injection H as <- <-.
    destruct (IH _ _ _ Ed) as (Hl & Hnd & Hf & Hall & Hfirst).
    split; [simpl; lia|]. split; [exact Hnd|]. split; [exact Hf|]. split.
    { intros r m [<- | Hin] Hm Hne; [congruence | exact (Hall r m Hin Hm Hne)]. }
    { intros r Hin. destruct (Hfirst r Hin) as (pre & post & Hrest & Hpre).
      exists (x :: pre), post. split; [simpl; rewrite Hrest; reflexivity|].
      constructor; [|exact Hpre].
      rewrite Forall_forall in Hf. destruct (Hf r Hin) as (m & Hm & _ & _).
      rewrite En, Hm. discriminate. }
Qed.

(** [l1] is [l2] with some elements left out, the others in their order. *)
Inductive subseq {A : Type} : list A -> list A -> Prop :=
  | subseq_nil : subseq [] []
  | subseq_take (x : A) (l1 l2 : list A) : subseq l1 l2 -> subseq (x :: l1) (x :: l2)
  | subseq_skip (x : A) (l1 l2 : list A) : subseq l1 l2 -> subseq l1 (x :: l2).

Lemma dedup_loop_subseq {R : Type} (get_name : R -> option string) (repos : list R) :
  forall seen u d, dedup_loop R get_name seen repos = (u, d) -> subseq u repos.
Proof.
  induction repos as [|x rest IH]; intros seen u d H; simpl in H.
  - injection H as <- _. constructor.
  - destruct (get_name x) as [n|].
    + destruct (negb (String.eqb n "") && negb (existsb (String.eqb n) seen)).
      * destruct (dedup_loop R get_name (n :: seen) rest) as [u' d'] eqn:Ed.
        injection H as <- _. constructor. exact (IH _ _ _ Ed).
      * destruct (dedup_loop R get_name seen rest) as [u' d'] eqn:Ed.
        injection H as <- _. constructor. exact (IH _ _ _ Ed).
    + destruct (dedup_loop R get_name seen rest) as [u' d'] eqn:Ed.
      injection H as <- _. constructor. exact (IH _ _ _ Ed).
Qed.

(** X22: the duplicate removal of [_consolidate_batches] keeps, for each
    non-empty ['name'], exactly its first record, in input order; records
    without a name or with an empty one are dropped; every dropped record
    is counted in [duplicates]. *)
Theorem remove_duplicates_spec {R : Type} (get_name : R -> option string) (all_repos : list R) :
  let '(unique_repos, duplicates) := remove_duplicates R get_name all_repos in
  List.length unique_repos + duplicates = List.length all_repos /\
  NoDup (map get_name unique_repos) /\
  Forall (fun r => py_truthy_str (get_name r) = true) unique_repos /\
  (forall r, In r all_repos -> py_truthy_str (get_name r) = true ->
     exists r', In r' unique_repos /\ get_name r' = get_name r) /\
  (forall r, In r unique_repos -> exists pre post, all_repos = pre ++ r :: post /\
     Forall (fun x => get_name x <> get_name r) pre) /\
  subseq unique_repos all_repos.
Proof.
  unfold remove_duplicates.
  destruct (dedup_loop R get_name [] all_repos) as [u d] eqn:E.
  destruct (dedup_loop_spec get_name all_repos [] u d E) as (Hl & Hnd & Hf & Hall & Hfirst).
  split; [exact Hl|]. split; [exact Hnd|]. split.
  - eapply Forall_impl; [|exact Hf]. intros r (n & Hn & Hne & _).
    rewrite Hn. unfold py_truthy_str. apply String.eqb_neq in Hne. rewrite Hne. reflexivity.
  - split; [|split; [exact Hfirst | exact (dedup_loop_subseq get_name all_repos [] u d E)]].
    intros r Hin Ht.
    destruct (get_name r) as [n|] eqn:En; [|discriminate].
    unfold py_truthy_str in Ht. apply negb_true_iff, String.eqb_neq in Ht.
    destruct (Hall r n Hin En Ht) as [[] | (r' & Hr' & Hn')].
    exists r'. split; [exact Hr' | exact Hn'].
Qed.

(** Digit strings, as [str.isdigit] for ASCII. *)
Definition is_digit (a : Ascii.ascii) : bool :=
  (48 <=? Ascii.nat_of_ascii a) && (Ascii.nat_of_ascii a <=? 57).

Fixpoint all_digits (s : string) : bool :=
  match s with
  | EmptyString => true
  | String a rest => is_digit a && all_digits rest
  end.

(** [c in s] *)
Fixpoint str_has (c : Ascii.ascii) (s : string) : bool :=
  match s with
  | EmptyString => false
  | String a rest => Ascii.eqb a c || str_has c rest
  end.

Lemma str_has_app (c : Ascii.ascii) (s1 s2 : string) :
  str_has c (s1 ++ s2) = str_has c s1 || str_has c s2.
Proof. induction s1 as [|a s1 IH]; simpl; [reflexivity|]. rewrite IH, orb_assoc. reflexivity. Qed.

Lemma all_digits_no_char (c : Ascii.ascii) (s : string) :
  is_digit c = false -> all_digits s = true -> str_has c s = false.
Proof.
  intros Hc. induction s as [|a s IH]; simpl; [reflexivity|].
  intros H. apply andb_true_iff in H. destruct H as [Ha Hs].
  rewrite (IH Hs), orb_false_r. destruct (Ascii.eqb_spec a c) as [->|]; [congruence | reflexivity].
Qed.

Lemma split_on_nonnil (c : Ascii.ascii) (s : string) : split_on c s <> [].
Proof.
  destruct s as [|a s]; simpl; [discriminate|].
  destruct (Ascii.eqb a c); [discriminate|]. destruct (split_on c s); discriminate.
Qed.

Lemma split_on_no_sep (c : Ascii.ascii) (s : string) :
  str_has c s = false -> split_on c s = [s].
Proof.
  induction s as [|a s IH]; simpl; [reflexivity|].
  intros H. apply orb_false_iff in H. destruct H as [Ha Hs].
  rewrite Ha, (IH Hs). reflexivity.
Qed.

Lemma split_on_app_sep (c : Ascii.ascii) (s1 s2 : string) :
  exists ps, ps <> [] /\ split_on c (s1 ++ String c s2) = ps ++ split_on c s2.
Proof.
  induction s1 as [|a s1 IH]; simpl.
  - rewrite Ascii.eqb_refl. exists [EmptyString]. split; [discriminate | reflexivity].
  - destruct IH as (ps & Hps & E). rewrite E.
    destruct (Ascii.eqb a c).
    + exists (EmptyString :: ps). split; [discriminate | reflexivity].
    + destruct ps as [|p ps]; [congruence|].
      exists (String a p :: ps). split; [discriminate | reflexivity].
Qed.

Lemma split_on_prefix (c : Ascii.ascii) (s1 s2 : string) :
  str_has c s1 = false -> split_on c (s1 ++ String c s2) = s1 :: split_on c s2.
Proof.
  induction s1 as [|a s1 IH]; simpl; intros H.
  - rewrite Ascii.eqb_refl. reflexivity.
  - apply orb_false_iff in H. destruct H as [Ha Hs]. rewrite (IH Hs), Ha. reflexivity.
Qed.

Lemma last_app_nonnil {A : Type} (l1 l2 : list A) (d : A) :
  l2 <> [] -> last (l1 ++ l2) d = last l2 d.
Proof.
  intros H. induction l1 as [|a l1 IH]; [reflexivity|].
  simpl. destruct (l1 ++ l2) eqn:E; [|exact IH].
  apply app_eq_nil in E. destruct E as [_ E]. contradiction.
Qed.

Lemma basename_join (dir f : string) :
  str_has "/"%char f = false -> basename (dir ++ String "/"%char f) = f.
Proof.
  intros H. unfold basename.
  destruct (split_on_app_sep "/"%char dir f) as (ps & _ & E). rewrite E.
  rewrite last_app_nonnil by apply split_on_nonnil.
  rewrite (split_on_no_sep _ _ H). reflexivity.
Qed.

Lemma string_of_uint_digits (u : Decimal.uint) : all_digits (NilEmpty.string_of_uint u) = true.
Proof. induction u; simpl; try rewrite IHu; reflexivity. Qed.

Lemma z_to_string_nonneg (z : Z) :
  (0 <= z)%Z -> exists u, u <> Decimal.Nil /\ z_to_string z = NilEmpty.string_of_uint u /\
                          Z.of_uint u = z.
Proof.
  intros Hz. destruct z as [|p|p]; [| |lia].
  - exists (Decimal.D0 Decimal.Nil). split; [discriminate | split; reflexivity].
  - pose proof (DecimalZ.of_to (Zpos p)) as Hot.
    unfold z_to_string. change (Z.to_int (Zpos p)) with (Decimal.Pos (Pos.to_uint p)) in *.
    change (Z.of_int (Decimal.Pos (Pos.to_uint p))) with (Z.of_uint (Pos.to_uint p)) in Hot.
    destruct (Pos.to_uint p) as [| u | u | u | u | u | u | u | u | u | u] eqn:Eu;
      [cbv in Hot; discriminate Hot | ..];
      (eexists; split; [| split; [reflexivity | exact Hot]]; discriminate).
Qed.

Lemma pad3_shape (n : nat) :
  exists pre u, u <> Decimal.Nil /\ pad3 n = (pre ++ NilEmpty.string_of_uint u)%string /\
    (pre = ""%string \/ pre = "0"%string \/ pre = "00"%string) /\ Z.of_uint u = Z.of_nat n.
Proof.
  destruct (z_to_string_nonneg (Z.of_nat n) ltac:(lia)) as (u & Hu & Hs & Hv).
  unfold pad3. rewrite Hs.
  destruct (String.length (NilEmpty.string_of_uint u)) as [|[|[|k]]].
  - exists ""%string, u. split; [exact Hu|]. split; [reflexivity|]. split; [tauto | exact Hv].
  - exists "00"%string, u. split; [exact Hu|]. split; [reflexivity|]. split; [tauto | exact Hv].
  - exists "0"%string, u. split; [exact Hu|]. split; [reflexivity|]. split; [tauto | exact Hv].
  - exists ""%string, u. split; [exact Hu|]. split; [reflexivity|]. split; [tauto | exact Hv].
Qed.

Lemma digit_not_space (a : Ascii.ascii) : is_digit a = true -> py_space a = false.
Proof.
  unfold is_digit, py_space. intros H. apply andb_true_iff in H. destruct H as [H1 H2].
  apply Nat.leb_le in H1. apply Nat.leb_le in H2.
  apply orb_false_iff. split; apply andb_false_iff;
    right; apply Nat.leb_gt; lia.
Qed.

Lemma lstrip_digits (s : string) : all_digits s = true -> lstrip s = s.
Proof.
  destruct s as [|a s]; simpl; [reflexivity|].
  intros H. apply andb_true_iff in H. rewrite (digit_not_space a (proj1 H)). reflexivity.
Qed.

Lemma all_digits_list (s : string) : all_digits s = forallb is_digit (list_ascii_of_string s).
Proof. induction s as [|a s IH]; simpl; [reflexivity|]. rewrite IH. reflexivity. Qed.

Lemma rev_string_digits (s : string) : all_digits s = true -> all_digits (rev_string s) = true.
Proof.
  unfold rev_string. rewrite !all_digits_list, list_ascii_of_string_of_list_ascii.
  intros H. apply forallb_forall. intros a Ha. apply in_rev in Ha.
  exact (proj1 (forallb_forall _ _) H a Ha).
Qed.

Lemma rev_string_involutive (s : string) : rev_string (rev_string s) = s.
Proof.
  unfold rev_string. rewrite list_ascii_of_string_of_list_ascii, rev_involutive.
  apply string_of_list_ascii_of_string.
Qed.

Lemma py_strip_digits (s : string) : all_digits s = true -> py_strip s = s.
Proof.
  intros H. unfold py_strip. rewrite (lstrip_digits s H).
  rewrite (lstrip_digits _ (rev_string_digits s H)). apply rev_string_involutive.
Qed.

Lemma py_int_digits (s : string) : all_digits s = true -> py_int s = py_digits s.
Proof.
  intros H. unfold py_int. rewrite (py_strip_digits s H).
  destruct s as [|a s]; [reflexivity|].
  simpl in H. apply andb_true_iff in H. destruct H as [Ha _].
  destruct a as [[] [] [] [] [] [] [] []]; try reflexivity; discriminate Ha.
Qed.

Lemma pad3_digits (n : nat) : all_digits (pad3 n) = true.
Proof.
  destruct (pad3_shape n) as (pre & u & _ & -> & Hpre & _).
  destruct Hpre as [-> | [-> | ->]]; simpl; apply string_of_uint_digits.
Qed.

Lemma py_int_pad3 (n : nat) : py_int (pad3 n) = Some (Z.of_nat n).
Proof.
  rewrite (py_int_digits _ (pad3_digits n)).
  destruct (pad3_shape n) as (pre & u & Hu & -> & Hpre & Hv).
  unfold py_digits.
  assert (Hne : NilZero.uint_of_string (NilEmpty.string_of_uint u) = Some u).
  { destruct u; [contradiction| ..]; apply NilEmpty.usu. }
  destruct Hpre as [-> | [-> | ->]].
  - simpl. rewrite Hne. rewrite Hv. reflexivity.
  - simpl. rewrite NilEmpty.usu. simpl. rewrite <- Hv. reflexivity.
  - simpl. rewrite NilEmpty.usu. simpl. rewrite <- Hv. reflexivity.
Qed.

Lemma extract_batch_file_name (dir OUTPUT_FILE : string) (m : nat) :
  str_has "/"%char OUTPUT_FILE = false ->
  extract_batch_number (dir ++ "/" ++ "batch_" ++ pad3 m ++ "_" ++ OUTPUT_FILE)
  = Z.of_nat m.
Proof.
  intros Hout.
  pose proof (all_digits_no_char "_"%char _ eq_refl (pad3_digits m)) as Hu.
  pose proof (all_digits_no_char "/"%char _ eq_refl (pad3_digits m)) as Hs.
  unfold extract_batch_number.
  change ("/" ++ ?x)%string with (String "/"%char x).
  rewrite (basename_join dir).
  2:{ change ("batch_" ++ ?y)%string with (String "b"%char (String "a"%char (String "t"%char
        (String "c"%char (String "h"%char (String "_"%char y)))))).
      cbn [str_has Ascii.eqb]. rewrite str_has_app, Hs. cbn [str_has Ascii.eqb orb].
      exact Hout. }
  change ("batch_" ++ pad3 m ++ "_" ++ OUTPUT_FILE)%string
    with ("batch" ++ String "_"%char (pad3 m ++ String "_"%char OUTPUT_FILE))%string.
  rewrite (split_on_prefix "_"%char "batch" _ eq_refl).
  rewrite (split_on_prefix _ (pad3 m) _ Hu).
  cbn [nth_error]. rewrite py_int_pad3. reflexivity.
Qed.

(** X23: [_extract_batch_number] reads back the batch number that
    [_save_batch_results] put in the file name: for any directory, the
    batch file for [start_index] yields [start_index // BATCH_SIZE + 1]
    (given an [OUTPUT_FILE] without ['/']). *)
Theorem extract_batch_number_roundtrip (BATCH_SIZE : nat) (OUTPUT_FILE dir f : string)
    (start_index : nat)
    (Hout : str_has "/"%char OUTPUT_FILE = false)
    (Hf : batch_json_file BATCH_SIZE OUTPUT_FILE start_index = Some f) :
  extract_batch_number (dir ++ "/" ++ f) = Z.of_nat (start_index / BATCH_SIZE + 1).
Proof.
  unfold batch_json_file, batch_number in Hf.
  destruct BATCH_SIZE as [|b]; [discriminate|].
  injection Hf as <-. apply extract_batch_file_name. exact Hout.
Qed.

Lemma extract_batch_number_roundtrip_witness :
  str_has "/"%char "github_repos_filtered.json" = false /\
  batch_json_file 200 "github_repos_filtered.json" 400
    = Some "batch_003_github_repos_filtered.json"%string /\
  extract_batch_number ("results/batches" ++ "/" ++ "batch_003_github_repos_filtered.json")
    = Z.of_nat (400 / 200 + 1).
Proof.
  assert (Hf : batch_json_file 200 "github_repos_filtered.json" 400
               = Some "batch_003_github_repos_filtered.json"%string) by (vm_compute; reflexivity).
  split; [reflexivity|]. split; [exact Hf|].
  exact (extract_batch_number_roundtrip 200 "github_repos_filtered.json" "results/batches" _ 400 eq_refl Hf).
Defined.

(** X24: [_get_project_category] answers "medium" only for a project
    whose three metrics all lie in (Q1, Q3] without all reaching Q3; so
    when Q1 = Q3 for some metric no project is "medium". *)
Theorem project_category_medium (q_stars q_watchers q_forks : Q * Q) (stars watchers forks : Q)
    (Hmed : get_project_category q_stars q_watchers q_forks stars watchers forks = "medium"%string) :
  (fst q_stars < stars <= snd q_stars)%Q /\
  (fst q_watchers < watchers <= snd q_watchers)%Q /\
  (fst q_forks < forks <= snd q_forks)%Q /\
  ~ (snd q_stars <= stars /\ snd q_watchers <= watchers /\ snd q_forks <= forks)%Q /\
  (fst q_stars < snd q_stars /\ fst q_watchers < snd q_watchers /\ fst q_forks < snd q_forks)%Q.
Proof.
  destruct q_stars as [s1 s3], q_watchers as [w1 w3], q_forks as [f1 f3].
  unfold get_project_category in Hmed. simpl.
  destruct (Qle_bool s3 stars && Qle_bool w3 watchers && Qle_bool f3 forks) eqn:Eh;
    [discriminate|].
  destruct (Qle_bool stars s1 && Qle_bool watchers w1 && Qle_bool forks f1); [discriminate|].
  destruct (negb (Qle_bool stars s1) && Qle_bool stars s3 &&
            (negb (Qle_bool watchers w1) && Qle_bool watchers w3) &&
            (negb (Qle_bool forks f1) && Qle_bool forks f3)) eqn:Em; [|discriminate].
  rewrite !andb_true_iff, !negb_true_iff in Em.
  destruct Em as [[[Hs1 Hs3] [Hw1 Hw3]] [Hf1 Hf3]].
  apply Qle_bool_iff in Hs3, Hw3, Hf3.
  assert (Hlt : forall x y, Qle_bool x y = false -> (y < x)%Q).
  { intros x y H. apply Qnot_le_lt. intros Hle. apply Qle_bool_iff in Hle. congruence. }
  apply Hlt in Hs1, Hw1, Hf1.
  split; [split; assumption|]. split; [split; assumption|]. split; [split; assumption|].
  split.
  - intros (H1 & H2 & H3). apply Qle_bool_iff in H1, H2, H3.
    rewrite H1, H2, H3 in Eh. discriminate.
  - split; [|split]; eapply Qlt_le_trans; eassumption.
Qed.

Lemma project_category_medium_witness :
  get_project_category (100, 900)%Q (10, 80)%Q (5, 60)%Q 500 40 30 = "medium"%string /\
  (fst (100, 900)%Q < 500 <= snd (100, 900)%Q)%Q /\
  (fst (10, 80)%Q < 40 <= snd (10, 80)%Q)%Q /\
  (fst (5, 60)%Q < 30 <= snd (5, 60)%Q)%Q /\
  ~ (snd (100, 900)%Q <= 500 /\ snd (10, 80)%Q <= 40 /\ snd (5, 60)%Q <= 30)%Q /\
  (fst (100, 900)%Q < snd (100, 900)%Q /\ fst (10, 80)%Q < snd (10, 80)%Q /\
   fst (5, 60)%Q < snd (5, 60)%Q)%Q.
Proof.
  assert (H : get_project_category (100, 900)%Q (10, 80)%Q (5, 60)%Q 500 40 30 = "medium"%string)
    by reflexivity.
  split; [exact H|]. exact (project_category_medium _ _ _ _ _ _ H).
Defined.

(** ** Cache keys *)

Lemma ascii_compare_lt_trans (a b c : Ascii.ascii) :
  Ascii.compare a b = Lt -> Ascii.compare b c = Lt -> Ascii.compare a c = Lt.
Proof.
  unfold Ascii.compare. rewrite !N.compare_lt_iff. lia.
Qed.

Lemma string_compare_lt_trans (s1 s2 s3 : string) :
  String.compare s1 s2 = Lt -> String.compare s2 s3 = Lt -> String.compare s1 s3 = Lt.
Proof.
  revert s2 s3. induction s1 as [|a s1 IH]; intros [|b s2] [|c s3]; simpl;
    try discriminate; try reflexivity.
  destruct (Ascii.compare a b) eqn:Eab; try discriminate;
  destruct (Ascii.compare b c) eqn:Ebc; try discriminate; intros H1 H2.
  - apply Ascii.compare_eq_iff in Eab, Ebc. subst.
    unfold Ascii.compare at 1. rewrite N.compare_refl. exact (IH _ _ H1 H2).
  - apply Ascii.compare_eq_iff in Eab. subst. rewrite Ebc. reflexivity.
  - apply Ascii.compare_eq_iff in Ebc. subst. rewrite Eab. reflexivity.
  - rewrite (ascii_compare_lt_trans _ _ _ Eab Ebc). reflexivity.
Qed.

Lemma string_compare_refl (s : string) : String.compare s s = Eq.
Proof.
  destruct (String.compare s s) eqn:E; [reflexivity | |];
    pose proof (String.compare_antisym s s) as A; rewrite E in A; discriminate A.
Qed.

Definition key_lt (p q : string * string) : Prop := String.compare (fst p) (fst q) = Lt.

Lemma key_lt_trans (p q r : string * string) : key_lt p q -> key_lt q r -> key_lt p r.
Proof. unfold key_lt. apply string_compare_lt_trans. Qed.

Lemma key_lt_irrefl (p : string * string) : ~ key_lt p p.
Proof. unfold key_lt. rewrite string_compare_refl. discriminate. Qed.

Lemma insert_param_perm (p : string * string) (l : list (string * string)) :
  Permutation (insert_param p l) (p :: l).
Proof.
  induction l as [|q rest IH]; simpl; [reflexivity|].
  destruct (String.ltb (fst q) (fst p)); [|reflexivity].
  rewrite IH. apply perm_swap.
Qed.

Lemma sort_params_perm (params : list (string * string)) :
  Permutation (sort_params params) params.
Proof.
  induction params as [|p rest IH]; simpl; [reflexivity|].
  unfold sort_params in IH. rewrite insert_param_perm, IH. reflexivity.
Qed.

Lemma insert_param_sorted (p : string * string) (l : list (string * string)) :
  StronglySorted key_lt l -> ~ In (fst p) (map fst l) ->
  StronglySorted key_lt (insert_param p l).
Proof.
  induction l as [|q rest IH]; simpl; intros Hs Hn.
  - constructor; constructor.
  - apply StronglySorted_inv in Hs. destruct Hs as [Hs Hq].
    assert (Hne : fst q <> fst p) by (intros E; apply Hn; left; exact E).
    destruct (String.ltb (fst q) (fst p)) eqn:E.
    + unfold String.ltb in E. destruct (String.compare (fst q) (fst p)) eqn:C; try discriminate.
      constructor; [apply IH; [exact Hs | intros H; apply Hn; right; exact H]|].
      apply (Permutation_Forall (Permutation_sym (insert_param_perm p rest))).
      constructor; [exact C | exact Hq].
    + assert (Hpq : key_lt p q).
      { unfold String.ltb in E. unfold key_lt. rewrite String.compare_antisym.
        destruct (String.compare (fst q) (fst p)) eqn:C; try discriminate; [|reflexivity].
        apply String.compare_eq_iff in C. contradiction. }
      constructor; [constructor; assumption|].
      constructor; [exact Hpq|].
      eapply Forall_impl; [|exact Hq]. intros r Hr. exact (key_lt_trans _ _ _ Hpq Hr).
Qed.

Lemma sort_params_sorted (params : list (string * string)) :
  NoDup (map fst params) -> StronglySorted key_lt (sort_params params).
Proof.
  induction params as [|p rest IH]; simpl; intros Hnd; [constructor|].
  inversion Hnd as [|x y Hn Hnd']; subst.
  apply insert_param_sorted; [exact (IH Hnd')|].
  intros Hin. apply Hn.
  apply (Permutation_in _ (Permutation_map fst (sort_params_perm rest))). exact Hin.
Qed.

Lemma strongly_sorted_perm_eq (l1 l2 : list (string * string)) :
  StronglySorted key_lt l1 -> StronglySorted key_lt l2 -> Permutation l1 l2 -> l1 = l2.
Proof.
  revert l2. induction l1 as [|a l1 IH]; intros l2 H1 H2 Hp.
  - symmetry. exact (Permutation_nil Hp).
  - destruct l2 as [|b l2]; [apply Permutation_sym, Permutation_nil in Hp; discriminate|].
    apply StronglySorted_inv in H1, H2. destruct H1 as [H1 F1], H2 as [H2 F2].
    assert (Hab : a = b).
    { destruct (Permutation_in a Hp (or_introl eq_refl)) as [E | Ha]; [symmetry; exact E|].
      destruct (Permutation_in b (Permutation_sym Hp) (or_introl eq_refl)) as [E | Hb];
        [exact E|].
      rewrite Forall_forall in F1, F2.
      exfalso. exact (key_lt_irrefl a (key_lt_trans _ _ _ (F1 b Hb) (F2 a Ha))). }
    subst b. f_equal. apply IH; [exact H1 | exact H2 | exact (Permutation_cons_inv Hp)].
Qed.

(** X25: [_get_cache_key] does not depend on the order of the parameters:
    two calls with the same (distinct-keyed) parameters in any order share
    one cache entry. *)
Theorem get_cache_key_order_independent (url : string) (p1 p2 : list (string * string))
    (Hkeys : NoDup (map fst p1)) (Hperm : Permutation p1 p2) :
  get_cache_key url p1 = get_cache_key url p2.
Proof.
  assert (Hkeys2 : NoDup (map fst p2)) by exact (Permutation_NoDup (Permutation_map fst Hperm) Hkeys).
  assert (Hs : sort_params p1 = sort_params p2).
  { apply strongly_sorted_perm_eq; [apply sort_params_sorted; assumption
                                    | apply sort_params_sorted; assumption |].
    rewrite !sort_params_perm. exact Hperm. }
  unfold get_cache_key. destruct p1 as [|x1 r1], p2 as [|x2 r2].
  - reflexivity.
  - apply Permutation_nil in Hperm. discriminate.
  - apply Permutation_sym, Permutation_nil in Hperm. discriminate.
  - rewrite Hs. reflexivity.
Qed.

Lemma get_cache_key_order_independent_witness :
  NoDup (map fst [("state", "closed"); ("per_page", "100")]%string) /\
  Permutation [("state", "closed"); ("per_page", "100")]%string
              [("per_page", "100"); ("state", "closed")]%string /\
  get_cache_key "https://api.github.com/repos/o/r/issues"
    [("state", "closed"); ("per_page", "100")]%string =
  get_cache_key "https://api.github.com/repos/o/r/issues"
    [("per_page", "100"); ("state", "closed")]%string.
Proof.
  assert (Hnd : NoDup (map fst [("state", "closed"); ("per_page", "100")]%string)).
  { simpl. constructor; [simpl; intros [E | []]; discriminate E|].
    constructor; [intros [] | constructor]. }
  assert (Hp : Permutation [("state", "closed"); ("per_page", "100")]%string
                           [("per_page", "100"); ("state", "closed")]%string) by apply perm_swap.
  split; [exact Hnd|]. split; [exact Hp|].
  exact (get_cache_key_order_independent _ _ _ Hnd Hp).
Defined.
